(** * The message slot character device

    A shallow embedding of the kernel module [message_slot.c] (the
    complete version, with [device_open], [device_ioctl], [device_write],
    [device_read] and [device_release]) and of the constants of
    [message_slot.h], followed by the properties of the write / read /
    configure protocol.

    Conventions of the embedding:
    - C integers are [Z] and casts are written out ([to_uint], [to_int]);
      a [size_t] that only counts bytes is an [N].
    - The two singly linked lists ([slot_t] through [next], [channel_t]
      through [next]) are Rocq lists in the same order: the head of the
      list is the head of the linked list, and a [while] traversal that
      stops at the first match is a recursive search for the first match.
    - A pointer to a slot or to a channel is obtained only by such a
      traversal, so a store through it is an update of the first match.
    - [kmalloc] may fail: the kernel state carries an oracle that decides
      every allocation and supplies the (uninitialised) contents of the
      block.
    - A user-space pointer is [None] when it is NULL and otherwise the
      bytes that are accessible behind it; [copy_from_user] and
      [copy_to_user] fault when asked for more than that.
    - A function that returns a negative errno fails with that [errno];
      the kernel state reached so far is kept, as in C. *)

From Stdlib Require Import ZArith NArith List Lia Bool.
From Stdlib Require Import Strings.Byte Strings.String.
From stdpp Require Import base list.
From Equations Require Import Equations.
Import ListNotations.
Local Open Scope Z_scope.

(** ** message_slot.h *)

Definition MAJOR_NUM : Z := 235.
Definition MAX_MESSAGE_LENGTH : N := 128.

(** [_IOW(type, nr, size)] is a macro of the Linux headers
    (include/uapi/asm-generic/ioctl.h), not of this module: direction bits
    [_IOC_WRITE = 1] at bit 30, the argument size at bit 16, the type at
    bit 8, the number at bit 0. The module only compares the two command
    numbers below with the command it is given. *)
Definition IOW (type nr size : Z) : Z :=
  Z.lor (Z.lor (Z.lor (Z.shiftl 1 30) (Z.shiftl size 16)) (Z.shiftl type 8)) nr.

Definition sizeof_unsigned_int : Z := 4.
Definition MSG_SLOT_CHANNEL : Z := IOW MAJOR_NUM 0 sizeof_unsigned_int.
Definition MSG_SLOT_SET_CEN : Z := IOW MAJOR_NUM 1 sizeof_unsigned_int.

(** ** Integer casts *)

(** [(unsigned int) x] *)
Definition to_uint (x : Z) : Z := x mod 2 ^ 32.
(** [(int) x] *)
Definition to_int (x : Z) : Z := (x + 2 ^ 31) mod 2 ^ 32 - 2 ^ 31.

(** ** Errors *)

Inductive errno : Set :=
| EINVAL | ENOMEM | EMSGSIZE | EFAULT | EWOULDBLOCK | ENOSPC.

(** The names the specification gives to the error codes. *)
Definition InvalidChannel : errno := EINVAL.
Definition MessageTooLarge : errno := EMSGSIZE.
Definition ChannelEmpty : errno := EWOULDBLOCK.
Definition BufferTooSmall : errno := ENOSPC.
Definition ResourceExhausted : errno := ENOMEM.
Definition FaultyInput : errno := EFAULT.
Definition FaultyOutput : errno := EFAULT.

(** ** Data structures *)

(** [channel_t]; the field [id] is [chan_id] here, [next] is the tail of
    the list the channel is in, [message] is the contents of the array. *)
Record channel_t : Type := mk_channel {
  chan_id : Z;
  message : list byte;
  message_length : N
}.

(** [slot_t]; [next] is the tail of the list the slot is in. *)
Record slot_t : Type := mk_slot {
  minor : Z;
  channels : list channel_t
}.

Record fd_state_t : Type := mk_fd_state {
  channel_id : Z;
  censorship_enabled : Z
}.

(** What the module uses of [struct inode] and [struct file]. *)
Record inode_t : Type := mk_inode { iminor : Z }.

Record file_t : Type := mk_file {
  file_inode : inode_t;
  private_data : option fd_state_t
}.

(** The global state of the module, [slot_list_head], together with the
    allocator: [kmalloc_oracle n] is the outcome of the [n]-th call of
    [kmalloc] ([None] for NULL, otherwise the bytes found in the block)
    and [kmalloc_calls] counts the calls made so far. *)
Record kernel : Type := mk_kernel {
  slot_list_head : list slot_t;
  kmalloc_oracle : nat -> option (list byte);
  kmalloc_calls : nat
}.

(** ** The monad of kernel code: state, and an errno on failure *)

Definition kern (A : Type) : Type := kernel -> (errno + A) * kernel.

Definition ret {A : Type} (a : A) : kern A := fun k => (inr a, k).

(** [return -e;] *)
Definition fail {A : Type} (e : errno) : kern A := fun k => (inl e, k).

Definition bind {A B : Type} (c : kern A) (f : A -> kern B) : kern B :=
  fun k => match c k with
           | (inl e, k') => (inl e, k')
           | (inr a, k') => f a k'
           end.

Notation "x <- c ;; f" := (bind c (fun x => f))
  (at level 20, c at level 99, f at level 200, only parsing).
Notation "c ;; f" := (bind c (fun _ => f))
  (at level 100, f at level 200, right associativity, only parsing).

Definition get_slots : kern (list slot_t) :=
  fun k => (inr (slot_list_head k), k).

Definition put_slots (l : list slot_t) : kern unit :=
  fun k => (inr tt, mk_kernel l (kmalloc_oracle k) (kmalloc_calls k)).

Definition kmalloc : kern (option (list byte)) :=
  fun k => (inr (kmalloc_oracle k (kmalloc_calls k)),
            mk_kernel (slot_list_head k) (kmalloc_oracle k) (S (kmalloc_calls k))).

(** [if (!p) return -e;] *)
Definition nonnull {A : Type} (e : errno) (p : option A) : kern A :=
  match p with
  | None => fail e
  | Some a => ret a
  end.

(** ** Traversals and stores *)

(** [while (slot) { if (slot->minor == minor) break; slot = slot->next; }] *)
Fixpoint find_slot (m : Z) (slot : list slot_t) : option slot_t :=
  match slot with
  | [] => None
  | s :: next => if minor s =? m then Some s else find_slot m next
  end.

(** [while (channel) { if (channel->id == id) break; channel = channel->next; }] *)
Fixpoint find_channel (c : Z) (channel : list channel_t) : option channel_t :=
  match channel with
  | [] => None
  | ch :: next => if chan_id ch =? c then Some ch else find_channel c next
  end.

(** A store through the slot pointer found by [find_slot m]. *)
Fixpoint store_slot (m : Z) (f : slot_t -> slot_t) (slot : list slot_t) : list slot_t :=
  match slot with
  | [] => []
  | s :: next => if minor s =? m then f s :: next else s :: store_slot m f next
  end.

(** A store through the channel pointer found by [find_channel c]. *)
Fixpoint store_channel (c : Z) (f : channel_t -> channel_t) (channel : list channel_t)
  : list channel_t :=
  match channel with
  | [] => []
  | ch :: next => if chan_id ch =? c then f ch :: next else ch :: store_channel c f next
  end.

(** [channel->next = slot->channels; slot->channels = channel;] *)
Definition push_channel (ch : channel_t) (s : slot_t) : slot_t :=
  mk_slot (minor s) (ch :: channels s).

(** ** User memory and buffers *)

(** [copy_from_user(kbuf, buffer, len)]: the [len] bytes copied, or a fault. *)
Definition copy_from_user (buffer : list byte) (len : N) : option (list byte) :=
  if (len <=? N.of_nat (length buffer))%N then Some (take (N.to_nat len) buffer) else None.

(** [memcpy(dst, src, len)]: the contents of [dst] afterwards. *)
Definition memcpy (dst src : list byte) (len : N) : list byte :=
  take (N.to_nat len) src ++ drop (N.to_nat len) dst.

(** [copy_to_user(buffer, src, len)]: the user buffer afterwards, or a fault. *)
Definition copy_to_user (buffer src : list byte) (len : N) : option (list byte) :=
  if (len <=? N.of_nat (length buffer))%N then Some (memcpy buffer src len) else None.

(** ** The censorship loop

    [for (i = 2; i < length; i += 3) kbuf[i] = '#';] *)
Equations? censor_loop (i len : N) (kbuf : list byte) : list byte
  by wf (N.to_nat (len - i)) lt :=
  censor_loop i len kbuf with decide (i < len)%N => {
    | left _ => censor_loop (i + 3) len (<[N.to_nat i := "#"%byte]> kbuf)
    | right _ => kbuf }.
Proof. lia. Qed.

(** [if (state->censorship_enabled) { ... }] *)
Definition apply_censorship (state : fd_state_t) (len : N) (kbuf : list byte) : list byte :=
  if censorship_enabled state =? 0 then kbuf else censor_loop 2 len kbuf.

(** ** The file operations *)

Definition fresh_state : fd_state_t := mk_fd_state 0 0.

Definition device_open (inode : inode_t) (file : file_t) : kern file_t :=
  let m := iminor inode in
  slots <- get_slots ;;
  match find_slot m slots with
  | Some _ => ret tt
  | None =>
      p <- kmalloc ;;
      nonnull ENOMEM p ;;
      put_slots (mk_slot m [] :: slots)
  end ;;
  p <- kmalloc ;;
  nonnull ENOMEM p ;;
  ret (mk_file (file_inode file) (Some fresh_state)).

Definition device_release (inode : inode_t) (file : option file_t) : kern (option file_t) :=
  match file with
  | Some f =>
      match private_data f with
      | Some _ => ret (Some (mk_file (file_inode f) None))
      | None => ret file
      end
  | None => ret file
  end.

Definition device_ioctl (file : option file_t) (ioctl_command_id ioctl_param : Z)
  : kern file_t :=
  f <- nonnull EINVAL file ;;
  state <- nonnull EINVAL (private_data f) ;;
  if ioctl_command_id =? MSG_SLOT_CHANNEL then
    if ioctl_param =? 0 then fail EINVAL
    else ret (mk_file (file_inode f)
                (Some (mk_fd_state (to_uint ioctl_param) (censorship_enabled state))))
  else if ioctl_command_id =? MSG_SLOT_SET_CEN then
    if negb (ioctl_param =? 0) && negb (ioctl_param =? 1) then fail EINVAL
    else ret (mk_file (file_inode f)
                (Some (mk_fd_state (channel_id state) (to_int ioctl_param))))
  else fail EINVAL.

(** The contents of a channel after [memcpy(channel->message, kbuf, len);
    channel->message_length = len;]. *)
Definition set_message (kbuf : list byte) (len : N) (ch : channel_t) : channel_t :=
  mk_channel (chan_id ch) (memcpy (message ch) kbuf len) len.

(** The same store, through the channel pointer found in the slot. *)
Definition store_message (c : Z) (kbuf : list byte) (len : N) (s : slot_t) : slot_t :=
  mk_slot (minor s) (store_channel c (set_message kbuf len) (channels s)).

Definition device_write (file : option file_t) (buffer : option (list byte)) (len : N)
  : kern N :=
  f <- nonnull EINVAL file ;;
  state <- nonnull EINVAL (private_data f) ;;
  ubuf <- nonnull EINVAL buffer ;;
  if channel_id state =? 0 then fail EINVAL else
  if (len =? 0)%N || (MAX_MESSAGE_LENGTH <? len)%N then fail EMSGSIZE else
  let m := iminor (file_inode f) in
  slots <- get_slots ;;
  slot <- nonnull EINVAL (find_slot m slots) ;;
  match find_channel (channel_id state) (channels slot) with
  | Some _ => ret tt
  | None =>
      p <- kmalloc ;;
      garbage <- nonnull ENOMEM p ;;
      put_slots (store_slot m (push_channel (mk_channel (channel_id state) garbage 0)) slots)
  end ;;
  p <- kmalloc ;;
  nonnull ENOMEM p ;;
  kbuf <- nonnull EFAULT (copy_from_user ubuf len) ;;
  let kbuf := apply_censorship state len kbuf in
  slots <- get_slots ;;
  put_slots (store_slot m (store_message (channel_id state) kbuf len) slots) ;;
  ret len.

Definition device_read (file : option file_t) (buffer : option (list byte)) (len : N)
  : kern (N * list byte) :=
  f <- nonnull EINVAL file ;;
  state <- nonnull EINVAL (private_data f) ;;
  ubuf <- nonnull EINVAL buffer ;;
  if channel_id state =? 0 then fail EINVAL else
  let m := iminor (file_inode f) in
  slots <- get_slots ;;
  slot <- nonnull EINVAL (find_slot m slots) ;;
  match find_channel (channel_id state) (channels slot) with
  | None => fail EWOULDBLOCK
  | Some channel =>
      if (message_length channel =? 0)%N then fail EWOULDBLOCK else
      if (len <? message_length channel)%N then fail ENOSPC else
      ubuf' <- nonnull EFAULT (copy_to_user ubuf (message channel) (message_length channel)) ;;
      ret (message_length channel, ubuf')
  end.

(** ** Sessions, endpoints and channels as the specification names them *)

(** The handle of an open session: a non-NULL [struct file] on the device
    node [inode] whose [private_data] points to [state]. *)
Definition session (inode : inode_t) (state : fd_state_t) : option file_t :=
  Some (mk_file inode (Some state)).

(** The endpoint of [inode] is in the registry. *)
Definition endpoint_registered (k : kernel) (inode : inode_t) : Prop :=
  find_slot (iminor inode) (slot_list_head k) <> None.

(** No allocation fails. *)
Definition memory_available (k : kernel) : Prop :=
  forall n : nat, kmalloc_oracle k n <> None.

(** The channel [c] of the endpoint [m], found the way [device_write] and
    [device_read] find it. *)
Definition channel_of (slots : list slot_t) (m c : Z) : option channel_t :=
  match find_slot m slots with
  | None => None
  | Some slot => find_channel c (channels slot)
  end.

Definition lookup_channel (k : kernel) (m c : Z) : option channel_t :=
  channel_of (slot_list_head k) m c.

(** The message a channel holds: the first [message_length] bytes of its
    array. *)
Definition stored_message (ch : channel_t) : list byte :=
  take (N.to_nat (message_length ch)) (message ch).

(** Every channel's stored length is in [[0, MAX_MESSAGE_LENGTH]]. *)
Definition length_ok (ch : channel_t) : Prop :=
  (0 <= message_length ch <= MAX_MESSAGE_LENGTH)%N.

Definition lengths_in_range (slots : list slot_t) : Prop :=
  Forall (fun s => Forall length_ok (channels s)) slots.

(** The state of the module when it is loaded: no slot yet. *)
Definition module_init (oracle : nat -> option (list byte)) : kernel :=
  mk_kernel [] oracle 0.

(** One call of a file operation, and the kernel state it leaves. *)
Inductive call : Type :=
| Open (inode : inode_t) (file : file_t)
| Ioctl (file : option file_t) (ioctl_command_id ioctl_param : Z)
| Write (file : option file_t) (buffer : option (list byte)) (len : N)
| Read (file : option file_t) (buffer : option (list byte)) (len : N)
| Release (inode : inode_t) (file : option file_t).

Definition exec (c : call) (k : kernel) : kernel :=
  match c with
  | Open inode file => snd (device_open inode file k)
  | Ioctl file cmd param => snd (device_ioctl file cmd param k)
  | Write file buffer len => snd (device_write file buffer len k)
  | Read file buffer len => snd (device_read file buffer len k)
  | Release inode file => snd (device_release inode file k)
  end.

Definition exec_all (cs : list call) (k : kernel) : kernel :=
  fold_left (fun k c => exec c k) cs k.

(** ** Channels that were never written *)

(** The channel [c] of the endpoint [m] holds no message: it does not exist
    or its stored length is 0. *)
Definition unwritten (k : kernel) (m c : Z) : Prop :=
  lookup_channel k m c = None
  \/ exists ch, lookup_channel k m c = Some ch /\ message_length ch = 0%N.

(** The call is a write through a session bound to channel [c] of the
    endpoint [m]. *)
Definition targets (call : call) (m c : Z) : Prop :=
  match call with
  | Write (Some f) _ _ =>
      match private_data f with
      | Some state => iminor (file_inode f) = m /\ channel_id state = c
      | None => False
      end
  | _ => False
  end.

(** The call is a write that returns a byte count. *)
Definition succeeds (call : call) (k : kernel) : Prop :=
  match call with
  | Write file buffer len => exists n, fst (device_write file buffer len k) = inr n
  | _ => False
  end.

(** No call of [cs], run from [k], is a successful write to channel [c] of
    the endpoint [m]. *)
Fixpoint never_written (cs : list call) (k : kernel) (m c : Z) : Prop :=
  match cs with
  | [] => True
  | call :: rest =>
      ~ (targets call m c /\ succeeds call k)
      /\ never_written rest (exec call k) m c
  end.

(** ** A concrete machine for examples *)

(** An allocator that never fails and hands out zeroed blocks. *)
Definition zeroed : nat -> option (list byte) :=
  fun _ => Some (repeat "000"%byte 128).

Definition node0 : inode_t := mk_inode 0.

(** The module loaded, and the device node of minor 0 opened once. *)
Definition booted : kernel :=
  exec (Open node0 (mk_file node0 None)) (module_init zeroed).

Definition user_page : list byte := repeat "000"%byte 128.

(** After an 8-byte write to channel 3 of that endpoint. *)
Definition written : kernel :=
  exec (Write (session node0 (mk_fd_state 3 0))
          (Some (list_byte_of_string "12345678")) 8) booted.

Definition written_channel : channel_t :=
  mk_channel 3 (list_byte_of_string "12345678" ++ drop 8 user_page) 8.

(** ** The censorship transform in the specification's words

    Index [i] is masked when [i >= 2] and [(i - 2) mod 3 == 0]; a masked
    byte becomes ['#'] and every other byte passes through unchanged. *)
Definition masked (i : N) : bool := ((2 <=? i) && ((i - 2) mod 3 =? 0))%N.

Definition censor_spec (b : list byte) : list byte :=
  imap (fun i x => if masked (N.of_nat i) then "#"%byte else x) b.

(** ** Sessions with no channel configured *)

(** The session of the open file [f] has no channel selected. *)
Definition unselected (f : file_t) : Prop :=
  exists state, private_data f = Some state /\ channel_id state = 0.

(** The file after a sequence of ioctl calls, each given as (command,
    argument) and made on the file as the calls before it left it; a call
    that fails leaves the file as it was. No ioctl changes the kernel state,
    so all of them run in [k]. *)
Fixpoint ioctls (calls : list (Z * Z)) (f : file_t) (k : kernel) : file_t :=
  match calls with
  | [] => f
  | (cmd, param) :: rest =>
      match device_ioctl (Some f) cmd param k with
      | (inr f', _) => ioctls rest f' k
      | (inl _, _) => ioctls rest f k
      end
  end.

(** The call does not select a channel: it is not [MSG_SLOT_CHANNEL], or its
    argument is one that leaves [channel_id] at 0. *)
Definition selects_no_channel (call : Z * Z) : Prop :=
  fst call <> MSG_SLOT_CHANNEL \/ to_uint (snd call) = 0.

(** ** Invariants of the registry *)

(** [P] holds of every channel of every slot. *)
Definition all_channels (P : channel_t -> Prop) (slots : list slot_t) : Prop :=
  Forall (fun s => Forall P (channels s)) slots.

(** No two slots have the same minor, and in a slot no two channels have the
    same id. *)
Definition unique_keys (slots : list slot_t) : Prop :=
  NoDup (map minor slots)
  /\ Forall (fun s => NoDup (map chan_id (channels s))) slots.

(** The stored length does not exceed the bytes of the array. *)
Definition message_fits (ch : channel_t) : Prop :=
  (N.to_nat (message_length ch) <= length (message ch))%nat.

(** The array has its declared size, [char message[MAX_MESSAGE_LENGTH]]. *)
Definition array_sized (ch : channel_t) : Prop :=
  length (message ch) = N.to_nat MAX_MESSAGE_LENGTH.

(** Every block the allocator hands out for a channel covers the array. *)
Definition blocks_sized (k : kernel) : Prop :=
  forall (n : nat) (g : list byte),
    kmalloc_oracle k n = Some g -> length g = N.to_nat MAX_MESSAGE_LENGTH.

(** ** The user programs [message_sender] and [message_reader]

    The two programs run against the module through system calls. A system
    call on a file of the device reaches the file operation the module
    registered in [fops] with the caller's arguments: [open] calls
    [device_open] on a new [struct file] whose [private_data] is NULL,
    [ioctl], [write] and [read] call [device_ioctl], [device_write] and
    [device_read], and [close] calls [device_release]. The program sees a
    negative return value when the operation fails. What the programs print
    on standard error is left out. *)

(** What the programs use and this repository does not define: [atoi] of the
    C library (its result is an [int]), the device node that a path names
    ([None] when [open] fails before it reaches the module), and what
    [write] on standard output returns for the bytes it is given: [None]
    for a negative value, [Some n] for the count [n] of bytes it wrote,
    which are the first [n] of the bytes given and may be fewer than all. *)
Record platform : Type := mk_platform {
  atoi : list byte -> Z;
  device_node : list byte -> option inode_t;
  stdout_write : list byte -> option nat
}.

(** Standard output wrote all the bytes it was given. *)
Definition stdout_accepts (p : platform) (out : list byte) : bool :=
  match stdout_write p out with
  | Some written => (length out <=? written)%nat
  | None => false
  end.

(** [strlen]: the bytes before the first NUL. *)
Fixpoint strlen (s : list byte) : N :=
  match s with
  | [] => 0
  | b :: rest => if Byte.eqb b "000"%byte then 0 else 1 + strlen rest
  end.

(** The memory behind a [char*] argument: the string and its NUL. *)
Definition c_string (s : list byte) : list byte := s ++ ["000"%byte].

(** A system call as its caller sees it: [None] for a negative return
    value. *)
Definition syscall {A : Type} (c : kern A) : kern (option A) :=
  fun k => match c k with
           | (inl _, k') => (inr None, k')
           | (inr a, k') => (inr (Some a), k')
           end.

Definition sys_open (p : platform) (path : list byte) : kern (option file_t) :=
  match device_node p path with
  | None => ret None
  | Some inode => syscall (device_open inode (mk_file inode None))
  end.

Definition sys_ioctl (fd : file_t) (request arg : Z) : kern (option file_t) :=
  syscall (device_ioctl (Some fd) request arg).

Definition sys_write (fd : file_t) (buf : list byte) (count : N) : kern (option N) :=
  syscall (device_write (Some fd) (Some buf) count).

Definition sys_read (fd : file_t) (buf : list byte) (count : N)
  : kern (option (N * list byte)) :=
  syscall (device_read (Some fd) (Some buf) count).

Definition sys_close (fd : file_t) : kern unit :=
  device_release (file_inode fd) (Some fd) ;; ret tt.

(** [main] of message_sender: [argv] holds the arguments without their NULs;
    the result is the exit status. *)
Definition message_sender (p : platform) (argv : list (list byte)) : kern Z :=
  match argv with
  | [_; device; arg2; arg3; message] =>
      let channel_id := to_uint (atoi p arg2) in
      let censorship := to_uint (atoi p arg3) in
      if (channel_id =? 0) || (negb (censorship =? 0) && negb (censorship =? 1))
      then ret 1 else
      fd <- sys_open p device ;;
      match fd with
      | None => ret 1
      | Some fd =>
          r <- sys_ioctl fd MSG_SLOT_SET_CEN censorship ;;
          match r with
          | None => sys_close fd ;; ret 1
          | Some fd =>
              r <- sys_ioctl fd MSG_SLOT_CHANNEL channel_id ;;
              match r with
              | None => sys_close fd ;; ret 1
              | Some fd =>
                  r <- sys_write fd (c_string message) (strlen (c_string message)) ;;
                  match r with
                  | None => sys_close fd ;; ret 1
                  | Some _ => sys_close fd ;; ret 0
                  end
              end
          end
      end
  | _ => ret 1
  end.

(** [main] of message_reader: [buffer] is what the array
    [char buffer[MAX_MESSAGE_LENGTH]] holds on entry; the result is the exit
    status and the bytes written to standard output. Only a negative return
    value of [write] is a failure: after a short write the program closes
    the file and returns 0. *)
Definition message_reader (p : platform) (buffer : list byte) (argv : list (list byte))
  : kern (Z * list byte) :=
  match argv with
  | [_; device; arg2] =>
      let channel_id := to_uint (atoi p arg2) in
      if channel_id =? 0 then ret (1, []) else
      fd <- sys_open p device ;;
      match fd with
      | None => ret (1, [])
      | Some fd =>
          r <- sys_ioctl fd MSG_SLOT_CHANNEL channel_id ;;
          match r with
          | None => sys_close fd ;; ret (1, [])
          | Some fd =>
              r <- sys_read fd buffer MAX_MESSAGE_LENGTH ;;
              match r with
              | None => sys_close fd ;; ret (1, [])
              | Some (bytes_read, buffer) =>
                  if (bytes_read =? 0)%N then sys_close fd ;; ret (1, []) else
                  let out := take (N.to_nat bytes_read) buffer in
                  match stdout_write p out with
                  | None => sys_close fd ;; ret (1, [])
                  | Some written => sys_close fd ;; ret (0, take written out)
                  end
              end
          end
      end
  | _ => ret (1, [])
  end.

(** A platform for examples: an [atoi] that is right on one-digit arguments,
    every path names the device node of minor 0, and standard output writes
    everything it is given. *)
Definition digit_atoi (s : list byte) : Z :=
  match s with
  | [b] => Z.of_N (Byte.to_N b) - 48
  | _ => 0
  end.

Definition one_node : platform :=
  mk_platform digit_atoi (fun _ => Some node0) (fun out => Some (length out)).

(** The same platform with a standard output that writes three bytes per
    call. *)
Definition short_stdout : platform :=
  mk_platform digit_atoi (fun _ => Some node0) (fun _ => Some 3%nat).

(** The calls that lead to [written]. *)
Definition written_calls : list call :=
  [Open node0 (mk_file node0 None);
   Write (session node0 (mk_fd_state 3 0)) (Some (list_byte_of_string "12345678")) 8].

(** From [k] to [k'] no stored message was replaced and none appeared:
    every channel of [k] is the same record in [k'], and a channel that held
    no message in [k] holds none in [k']. *)
Definition no_message_changed (k k' : kernel) : Prop :=
  (forall m c ch, lookup_channel k m c = Some ch -> lookup_channel k' m c = Some ch)
  /\ (forall m c, unwritten k m c -> unwritten k' m c).

(** ** Running kernel code in proofs *)

Ltac kern_unfold :=
  unfold nonnull, get_slots, put_slots, kmalloc, bind, ret, fail in *;
  cbn [fst snd slot_list_head kmalloc_oracle kmalloc_calls
       private_data file_inode iminor] in *.

Ltac kern_simpl :=
  cbn [fst snd slot_list_head kmalloc_oracle kmalloc_calls
       private_data file_inode iminor] in *.

(** Case analysis on the innermost test of the code in the goal. *)
Ltac kern_cases :=
  repeat (kern_simpl;
          match goal with
          | |- context [match ?x with _ => _ end] =>
              lazymatch x with
              | context [match _ with _ => _ end] => fail
              | _ => destruct x eqn:?
              end
          end).

(** Side conditions on concrete inputs, by evaluation. *)
Ltac by_evaluation :=
  solve [ unfold endpoint_registered; vm_compute; discriminate
        | intros ?; vm_compute; discriminate
        | vm_compute; reflexivity
        | unfold MAX_MESSAGE_LENGTH; cbn; lia
        | cbn; lia
        | cbn; congruence ].

(** * Properties *)

(** ** The censorship loop *)

Lemma censor_loop_length i len kbuf :
  length (censor_loop i len kbuf) = length kbuf.
Proof.
  funelim (censor_loop i len kbuf).
  - rewrite H. apply length_insert.
  - reflexivity.
Qed.

Lemma mod3_step (a : N) : (3 <= a)%N -> ((a - 3) mod 3 = a mod 3)%N.
Proof.
  intros Ha. replace a with ((a - 3) + 1 * 3)%N at 2 by lia.
  rewrite N.Div0.mod_add. reflexivity.
Qed.

Lemma mod3_zero_ge (a : N) : a <> 0%N -> (a mod 3 = 0)%N -> (3 <= a)%N.
Proof.
  intros Hnz Hmod.
  destruct (N.eq_dec a 1%N) as [->|H1]; [discriminate|].
  destruct (N.eq_dec a 2%N) as [->|H2]; [discriminate|].
  lia.
Qed.

(** What the loop started at [i] leaves at position [j]. *)
Lemma censor_loop_lookup i len kbuf (j : nat) :
  censor_loop i len kbuf !! j =
    if decide ((i <= N.of_nat j < len)%N /\ ((N.of_nat j - i) mod 3 = 0)%N
               /\ (j < length kbuf)%nat)
    then Some "#"%byte else kbuf !! j.
Proof.
  funelim (censor_loop i len kbuf).
  - rewrite H. rewrite length_insert.
    destruct (decide (j = N.to_nat i)) as [->|Hne].
    + rewrite N2Nat.id.
      rewrite decide_False by lia.
      replace (i - i)%N with 0%N by lia.
      destruct (decide (N.to_nat i < length kbuf)%nat) as [Hlt|Hge].
      * rewrite list_lookup_insert_eq by lia.
        rewrite decide_True; [reflexivity|]. repeat split; (lia || reflexivity).
      * rewrite list_insert_ge by lia. rewrite decide_False by lia. reflexivity.
    + rewrite list_lookup_insert_ne by lia.
      destruct (decide ((i <= N.of_nat j < len)%N /\ ((N.of_nat j - i) mod 3 = 0)%N
                        /\ (j < length kbuf)%nat)) as [(H1 & H2 & H3)|Hn].
      * assert (3 <= N.of_nat j - i)%N by (apply mod3_zero_ge; [lia|exact H2]).
        rewrite decide_True; [reflexivity|].
        repeat split; try lia.
        replace (N.of_nat j - (i + 3))%N with (N.of_nat j - i - 3)%N by lia.
        rewrite mod3_step by lia. exact H2.
      * rewrite decide_False; [reflexivity|].
        intros (H1 & H2 & H3). apply Hn. repeat split; try lia.
        replace (N.of_nat j - (i + 3))%N with (N.of_nat j - i - 3)%N in H2 by lia.
        rewrite mod3_step in H2 by lia. exact H2.
  - rewrite decide_False by lia. reflexivity.
Qed.

Lemma masked_iff (j : N) :
  masked j = true <-> (2 <= j)%N /\ ((j - 2) mod 3 = 0)%N.
Proof.
  unfold masked. rewrite andb_true_iff, N.leb_le, N.eqb_eq. reflexivity.
Qed.

(** The loop of [device_write], run over a buffer of [len] bytes, computes
    the transform of the specification. *)
Lemma censor_loop_spec (b : list byte) :
  censor_loop 2 (N.of_nat (length b)) b = censor_spec b.
Proof.
  apply list_eq. intros j.
  rewrite censor_loop_lookup.
  unfold censor_spec. rewrite list_lookup_imap.
  destruct (b !! j) as [x|] eqn:Hj.
  - apply lookup_lt_Some in Hj. cbn.
    destruct (masked (N.of_nat j)) eqn:Hm.
    + apply masked_iff in Hm. rewrite decide_True; [reflexivity|].
      repeat split; lia.
    + rewrite decide_False; [reflexivity|].
      intros (H1 & H2 & H3).
      assert (masked (N.of_nat j) = true) by (apply masked_iff; split; [lia|exact H2]).
      congruence.
  - apply lookup_ge_None in Hj. rewrite decide_False by lia. reflexivity.
Qed.

Lemma censor_spec_length (b : list byte) : length (censor_spec b) = length b.
Proof. unfold censor_spec. apply length_imap. Qed.

Lemma censor_spec_idempotent (b : list byte) :
  censor_spec (censor_spec b) = censor_spec b.
Proof.
  apply list_eq. intros j. unfold censor_spec.
  rewrite !list_lookup_imap.
  destruct (b !! j) as [x|]; cbn; [|reflexivity].
  destruct (masked (N.of_nat j)); reflexivity.
Qed.

(** ** Traversals and stores *)

Lemma find_slot_minor m l s : find_slot m l = Some s -> minor s = m.
Proof.
  induction l as [|a l IH]; cbn; [discriminate|].
  destruct (minor a =? m) eqn:E; [|exact IH].
  intros [= <-]. lia.
Qed.

Lemma find_channel_id c l ch : find_channel c l = Some ch -> chan_id ch = c.
Proof.
  induction l as [|a l IH]; cbn; [discriminate|].
  destruct (chan_id a =? c) eqn:E; [|exact IH].
  intros [= <-]. lia.
Qed.

Section Stores.
Variable f : slot_t -> slot_t.
Hypothesis f_minor : forall s, minor (f s) = minor s.

Lemma find_slot_store_slot m l :
  find_slot m (store_slot m f l) = f <$> find_slot m l.
Proof.
  induction l as [|a l IH]; cbn; [reflexivity|].
  destruct (minor a =? m) eqn:E; cbn.
  - rewrite f_minor, E. reflexivity.
  - rewrite E. exact IH.
Qed.

Lemma find_slot_store_slot_ne m m' l :
  m <> m' -> find_slot m' (store_slot m f l) = find_slot m' l.
Proof.
  intros Hne. induction l as [|a l IH]; cbn; [reflexivity|].
  destruct (minor a =? m) eqn:E; cbn.
  - rewrite f_minor. apply Z.eqb_eq in E.
    destruct (minor a =? m') eqn:E'; [|reflexivity].
    apply Z.eqb_eq in E'. congruence.
  - rewrite IH. reflexivity.
Qed.
End Stores.

Section ChannelStores.
Variable g : channel_t -> channel_t.
Hypothesis g_id : forall ch, chan_id (g ch) = chan_id ch.

Lemma find_channel_store_channel c l :
  find_channel c (store_channel c g l) = g <$> find_channel c l.
Proof.
  induction l as [|a l IH]; cbn; [reflexivity|].
  destruct (chan_id a =? c) eqn:E; cbn.
  - rewrite g_id, E. reflexivity.
  - rewrite E. exact IH.
Qed.

Lemma find_channel_store_channel_ne c c' l :
  c <> c' -> find_channel c' (store_channel c g l) = find_channel c' l.
Proof.
  intros Hne. induction l as [|a l IH]; cbn; [reflexivity|].
  destruct (chan_id a =? c) eqn:E; cbn.
  - rewrite g_id. apply Z.eqb_eq in E.
    destruct (chan_id a =? c') eqn:E'; [|reflexivity].
    apply Z.eqb_eq in E'. congruence.
  - rewrite IH. reflexivity.
Qed.
End ChannelStores.

Lemma push_channel_minor ch s : minor (push_channel ch s) = minor s.
Proof. reflexivity. Qed.

Lemma store_message_minor c kbuf len s : minor (store_message c kbuf len s) = minor s.
Proof. reflexivity. Qed.

Lemma set_message_id kbuf len ch : chan_id (set_message kbuf len ch) = chan_id ch.
Proof. reflexivity. Qed.

(** ** Channels after the stores of [device_write] *)

Lemma channel_of_push m ch l :
  find_slot m l <> None ->
  channel_of (store_slot m (push_channel ch) l) m (chan_id ch) = Some ch.
Proof.
  intros Hs. unfold channel_of.
  rewrite find_slot_store_slot by apply push_channel_minor.
  destruct (find_slot m l) as [s|]; [|congruence].
  cbn. rewrite Z.eqb_refl. reflexivity.
Qed.

Lemma channel_of_push_new m c garbage l :
  find_slot m l <> None ->
  channel_of (store_slot m (push_channel (mk_channel c garbage 0)) l) m c
  = Some (mk_channel c garbage 0).
Proof. apply (channel_of_push m (mk_channel c garbage 0)). Qed.

Lemma channel_of_push_other m ch l m2 c2 :
  m <> m2 \/ chan_id ch <> c2 ->
  channel_of (store_slot m (push_channel ch) l) m2 c2 = channel_of l m2 c2.
Proof.
  intros Hne. unfold channel_of.
  destruct (Z.eq_dec m m2) as [<-|Hm].
  - rewrite find_slot_store_slot by apply push_channel_minor.
    destruct (find_slot m l) as [s|]; [|reflexivity].
    cbn. destruct (chan_id ch =? c2) eqn:E; [|reflexivity].
    apply Z.eqb_eq in E. destruct Hne; congruence.
  - rewrite find_slot_store_slot_ne by (apply push_channel_minor || exact Hm).
    reflexivity.
Qed.

Lemma channel_of_store_message m c kbuf len l :
  channel_of (store_slot m (store_message c kbuf len) l) m c
  = set_message kbuf len <$> channel_of l m c.
Proof.
  unfold channel_of.
  rewrite find_slot_store_slot by apply store_message_minor.
  destruct (find_slot m l) as [s|]; [|reflexivity].
  cbn. apply find_channel_store_channel, set_message_id.
Qed.

Lemma channel_of_store_message_other m c kbuf len l m2 c2 :
  m <> m2 \/ c <> c2 ->
  channel_of (store_slot m (store_message c kbuf len) l) m2 c2 = channel_of l m2 c2.
Proof.
  intros Hne. unfold channel_of.
  destruct (Z.eq_dec m m2) as [<-|Hm].
  - rewrite find_slot_store_slot by apply store_message_minor.
    destruct (find_slot m l) as [s|]; [|reflexivity].
    cbn. destruct Hne as [Hne|Hne]; [congruence|].
    apply find_channel_store_channel_ne; [apply set_message_id|exact Hne].
  - rewrite find_slot_store_slot_ne by (apply store_message_minor || exact Hm).
    reflexivity.
Qed.

(** ** Channel isolation *)

(** A write leaves every channel other than the one its session is bound to
    as it was, whatever it returns. *)
Lemma device_write_frame file buffer len k m2 c2 :
  (forall f state, file = Some f -> private_data f = Some state ->
                   iminor (file_inode f) <> m2 \/ channel_id state <> c2) ->
  lookup_channel (snd (device_write file buffer len k)) m2 c2
  = lookup_channel k m2 c2.
Proof.
  intros Hne.
  destruct file as [[inode [state|]]|]; try reflexivity.
  specialize (Hne _ _ eq_refl eq_refl). cbn in Hne.
  unfold lookup_channel, device_write. kern_unfold.
  kern_cases; cbn [snd slot_list_head]; try reflexivity.
  - rewrite channel_of_store_message_other by exact Hne. reflexivity.
  - rewrite channel_of_store_message_other by exact Hne.
    apply channel_of_push_other. exact Hne.
  - apply channel_of_push_other. exact Hne.
  - apply channel_of_push_other. exact Hne.
Qed.

(** C8. A write through a session bound to channel [channel_id state] of the
    endpoint [iminor inode] leaves every other channel, of the same endpoint
    or of another one, as it was: the same record (array contents and stored
    length) is found before and after, whatever the write returns. *)
Theorem write_leaves_other_channels
  (k : kernel) (inode : inode_t) (state : fd_state_t)
  (buffer : option (list byte)) (len : N) (m2 c2 : Z) :
  (iminor inode, channel_id state) <> (m2, c2) ->
  lookup_channel (snd (device_write (session inode state) buffer len k)) m2 c2
  = lookup_channel k m2 c2
  /\ stored_message <$> lookup_channel
                          (snd (device_write (session inode state) buffer len k)) m2 c2
     = stored_message <$> lookup_channel k m2 c2
  /\ message_length <$> lookup_channel
                           (snd (device_write (session inode state) buffer len k)) m2 c2
     = message_length <$> lookup_channel k m2 c2.
Proof.
  intros Hne.
  assert (Hframe : lookup_channel
                     (snd (device_write (session inode state) buffer len k)) m2 c2
                   = lookup_channel k m2 c2).
  { apply device_write_frame. intros f st [= <-] [= <-]. cbn.
    destruct (Z.eq_dec (iminor inode) m2); [right|left]; congruence. }
  rewrite Hframe. repeat split.
Qed.

(** ** What a read returns *)

Lemma device_read_channel k inode state region len ch :
  channel_id state <> 0 ->
  lookup_channel k (iminor inode) (channel_id state) = Some ch ->
  device_read (session inode state) (Some region) len k =
    if (message_length ch =? 0)%N then (inl EWOULDBLOCK, k)
    else if (len <? message_length ch)%N then (inl ENOSPC, k)
    else match copy_to_user region (message ch) (message_length ch) with
         | None => (inl EFAULT, k)
         | Some region' => (inr (message_length ch, region'), k)
         end.
Proof.
  intros Hc Hch. apply Z.eqb_neq in Hc.
  unfold lookup_channel, channel_of in Hch.
  unfold device_read, session. kern_unfold. rewrite Hc.
  destruct (find_slot (iminor inode) (slot_list_head k)) as [slot|]; [|discriminate].
  rewrite Hch. kern_cases; reflexivity.
Qed.

Lemma device_read_no_channel k inode state region len :
  endpoint_registered k inode ->
  channel_id state <> 0 ->
  lookup_channel k (iminor inode) (channel_id state) = None ->
  device_read (session inode state) (Some region) len k = (inl EWOULDBLOCK, k).
Proof.
  intros Hs Hc Hch. apply Z.eqb_neq in Hc.
  unfold endpoint_registered in Hs.
  unfold lookup_channel, channel_of in Hch.
  unfold device_read, session. kern_unfold. rewrite Hc.
  destruct (find_slot (iminor inode) (slot_list_head k)) as [slot|]; [|congruence].
  rewrite Hch. reflexivity.
Qed.

Lemma copy_to_user_fits region src len :
  (len <= N.of_nat (length region))%N ->
  copy_to_user region src len
  = Some (take (N.to_nat len) src ++ drop (N.to_nat len) region).
Proof.
  intros H. unfold copy_to_user, memcpy.
  apply N.leb_le in H. rewrite H. reflexivity.
Qed.

(** A read of a channel that holds a message, into a buffer that is large
    enough, returns the stored length and puts the stored message at the
    start of the buffer. *)
Lemma device_read_message k inode state region len ch :
  channel_id state <> 0 ->
  lookup_channel k (iminor inode) (channel_id state) = Some ch ->
  (0 < message_length ch)%N ->
  (message_length ch <= len)%N ->
  (len <= N.of_nat (length region))%N ->
  device_read (session inode state) (Some region) len k
  = (inr (message_length ch,
          stored_message ch ++ drop (N.to_nat (message_length ch)) region), k).
Proof.
  intros Hc Hch Hpos Hlen Hreg.
  rewrite (device_read_channel k inode state region len ch Hc Hch).
  destruct (message_length ch =? 0)%N eqn:E0; [apply N.eqb_eq in E0; lia|].
  destruct (len <? message_length ch)%N eqn:E1; [apply N.ltb_lt in E1; lia|].
  rewrite copy_to_user_fits by lia. reflexivity.
Qed.

(** ** What a write stores *)

Lemma apply_censorship_length state len kbuf :
  length (apply_censorship state len kbuf) = length kbuf.
Proof.
  unfold apply_censorship.
  destruct (censorship_enabled state =? 0); [reflexivity|apply censor_loop_length].
Qed.

Lemma stored_message_set_message kbuf len ch :
  length kbuf = N.to_nat len ->
  stored_message (set_message kbuf len ch) = kbuf.
Proof.
  intros Hk. unfold stored_message, set_message, memcpy. cbn.
  rewrite take_app_le by (rewrite length_take; lia).
  rewrite take_take, Nat.min_id. apply take_ge. lia.
Qed.

Lemma copy_from_user_fits ubuf len :
  (len <= N.of_nat (length ubuf))%N ->
  exists kbuf, copy_from_user ubuf len = Some kbuf
               /\ kbuf = take (N.to_nat len) ubuf
               /\ length kbuf = N.to_nat len.
Proof.
  intros H. unfold copy_from_user.
  apply N.leb_le in H. rewrite H.
  eexists; split; [reflexivity|split; [reflexivity|]].
  apply N.leb_le in H. rewrite length_take. lia.
Qed.

(** With memory available, a write of [len] accessible bytes, [len] in
    [[1, MAX_MESSAGE_LENGTH]], through a session with a selected channel
    succeeds; the channel then holds the bytes written, censored when the
    session says so. *)
Lemma device_write_stores k inode state ubuf len :
  endpoint_registered k inode ->
  memory_available k ->
  channel_id state <> 0 ->
  (1 <= len <= MAX_MESSAGE_LENGTH)%N ->
  (len <= N.of_nat (length ubuf))%N ->
  exists k' ch,
    device_write (session inode state) (Some ubuf) len k = (inr len, k')
    /\ lookup_channel k' (iminor inode) (channel_id state) = Some ch
    /\ message_length ch = len
    /\ stored_message ch = apply_censorship state len (take (N.to_nat len) ubuf)
    /\ kmalloc_oracle k' = kmalloc_oracle k.
Proof.
  intros Hs Hmem Hc Hlen Hfit.
  unfold endpoint_registered in Hs.
  destruct (copy_from_user_fits ubuf len) as (kbuf & Hcopy & -> & Hkl); [lia|].
  assert (Hkl' : length (apply_censorship state len (take (N.to_nat len) ubuf))
                 = N.to_nat len) by (rewrite apply_censorship_length; exact Hkl).
  unfold MAX_MESSAGE_LENGTH in Hlen.
  unfold device_write, session, lookup_channel. kern_unfold.
  apply Z.eqb_neq in Hc. rewrite Hc.
  replace (len =? 0)%N with false by (symmetry; apply N.eqb_neq; lia).
  replace (MAX_MESSAGE_LENGTH <? len)%N with false
    by (symmetry; apply N.ltb_ge; unfold MAX_MESSAGE_LENGTH; lia).
  cbn [orb].
  destruct (find_slot (iminor inode) (slot_list_head k)) as [slot|] eqn:Hslot;
    [|congruence].
  destruct (find_channel (channel_id state) (channels slot)) as [ch|] eqn:Hch.
  - kern_simpl.
    destruct (kmalloc_oracle k (kmalloc_calls k)) as [g|] eqn:Hg;
      [|exfalso; exact (Hmem _ Hg)].
    kern_simpl. rewrite Hcopy. kern_simpl.
    eexists _, _. split; [reflexivity|]. kern_simpl.
    rewrite channel_of_store_message. unfold channel_of. rewrite Hslot, Hch. cbn.
    repeat split. apply stored_message_set_message; exact Hkl'.
  - kern_simpl.
    destruct (kmalloc_oracle k (kmalloc_calls k)) as [g|] eqn:Hg;
      [|exfalso; exact (Hmem _ Hg)].
    kern_simpl.
    destruct (kmalloc_oracle k (S (kmalloc_calls k))) as [g'|] eqn:Hg';
      [|exfalso; exact (Hmem _ Hg')].
    kern_simpl. rewrite Hcopy. kern_simpl.
    eexists _, _. split; [reflexivity|]. kern_simpl.
    rewrite channel_of_store_message.
    rewrite channel_of_push_new by congruence.
    cbn. repeat split. apply stored_message_set_message; exact Hkl'.
Qed.

Lemma lookup_channel_registered k inode c ch :
  lookup_channel k (iminor inode) c = Some ch -> endpoint_registered k inode.
Proof.
  unfold lookup_channel, channel_of, endpoint_registered.
  destruct (find_slot (iminor inode) (slot_list_head k)); [discriminate 2|discriminate 1].
Qed.

Lemma memory_available_oracle k k' :
  kmalloc_oracle k' = kmalloc_oracle k -> memory_available k -> memory_available k'.
Proof. unfold memory_available. intros -> H. exact H. Qed.

(** An endpoint, once registered, stays registered, and no call changes the
    allocator's oracle: the assumptions made below on the state before a
    write or a read hold in every state that follows a successful
    [device_open] on a machine whose allocator never fails. *)
Lemma store_slot_registered m m' f l :
  (forall s, minor (f s) = minor s) ->
  find_slot m l <> None -> find_slot m (store_slot m' f l) <> None.
Proof.
  intros Hf Hl. destruct (Z.eq_dec m' m) as [->|Hne].
  - rewrite find_slot_store_slot by exact Hf.
    destruct (find_slot m l); [discriminate|congruence].
  - rewrite find_slot_store_slot_ne by assumption. exact Hl.
Qed.

Lemma exec_registered call k inode :
  endpoint_registered k inode -> endpoint_registered (exec call k) inode.
Proof.
  unfold endpoint_registered. intros Hreg.
  destruct call as [ino file|file cmd param|file buffer len|file buffer len|ino file];
    cbn [exec].
  - unfold device_open. kern_unfold.
    kern_cases; cbn [snd slot_list_head]; try exact Hreg.
    all: cbn [find_slot minor]; destruct (iminor ino =? iminor inode);
      [discriminate|exact Hreg].
  - unfold device_ioctl. kern_unfold. kern_cases; exact Hreg.
  - unfold device_write. kern_unfold.
    kern_cases; cbn [snd slot_list_head]; try exact Hreg;
      repeat (apply store_slot_registered; [reflexivity|]); exact Hreg.
  - unfold device_read. kern_unfold. kern_cases; exact Hreg.
  - unfold device_release. kern_unfold. kern_cases; exact Hreg.
Qed.

Lemma exec_oracle call k : kmalloc_oracle (exec call k) = kmalloc_oracle k.
Proof.
  destruct call as [ino file|file cmd param|file buffer len|file buffer len|ino file];
    cbn [exec].
  - unfold device_open. kern_unfold. kern_cases; reflexivity.
  - unfold device_ioctl. kern_unfold. kern_cases; reflexivity.
  - unfold device_write. kern_unfold. kern_cases; reflexivity.
  - unfold device_read. kern_unfold. kern_cases; reflexivity.
  - unfold device_release. kern_unfold. kern_cases; reflexivity.
Qed.

Lemma exec_all_session_assumptions cs k inode :
  endpoint_registered k inode -> memory_available k ->
  endpoint_registered (exec_all cs k) inode /\ memory_available (exec_all cs k).
Proof.
  unfold exec_all. revert k.
  induction cs as [|call cs IH]; intros k Hreg Hmem; cbn; [split; assumption|].
  apply IH.
  - apply exec_registered, Hreg.
  - eapply memory_available_oracle; [apply exec_oracle|exact Hmem].
Qed.

(** ** Write, then read *)

(** C1. On every endpoint, for every nonzero channel id and every message
    [m] of 1 to 128 bytes: a write of [m] through a session with censorship
    disabled succeeds, and a read of that channel (through any session bound
    to it) with capacity at least [length m] then returns [length m] and
    puts exactly [m] at the start of the caller's buffer. The kernel state
    [k] before the write is arbitrary, so this holds whatever the channel
    held before; in particular, after an earlier message [m1] has been
    written to the channel, writing [m] and reading yields [m]. *)
Theorem write_then_read_returns_message
  (k : kernel) (inode : inode_t) (writer reader : fd_state_t)
  (m region : list byte) (cap : N) :
  endpoint_registered k inode ->
  memory_available k ->
  channel_id writer <> 0 ->
  channel_id reader = channel_id writer ->
  censorship_enabled writer = 0 ->
  (1 <= N.of_nat (length m) <= MAX_MESSAGE_LENGTH)%N ->
  (N.of_nat (length m) <= cap)%N ->
  (cap <= N.of_nat (length region))%N ->
  (exists k',
      device_write (session inode writer) (Some m) (N.of_nat (length m)) k
      = (inr (N.of_nat (length m)), k')
      /\ device_read (session inode reader) (Some region) cap k'
         = (inr (N.of_nat (length m), m ++ drop (length m) region), k'))
  /\ (forall (earlier : fd_state_t) (m1 : list byte),
         channel_id earlier = channel_id writer ->
         (1 <= N.of_nat (length m1) <= MAX_MESSAGE_LENGTH)%N ->
         exists k1 k2,
           device_write (session inode earlier) (Some m1) (N.of_nat (length m1)) k
           = (inr (N.of_nat (length m1)), k1)
           /\ device_write (session inode writer) (Some m) (N.of_nat (length m)) k1
              = (inr (N.of_nat (length m)), k2)
           /\ device_read (session inode reader) (Some region) cap k2
              = (inr (N.of_nat (length m), m ++ drop (length m) region), k2)).
Proof.
  intros Hreg Hmem Hw Hr Hcen Hlen Hcap Hregion.
  assert (Hround : forall k0, endpoint_registered k0 inode -> memory_available k0 ->
            exists k',
              device_write (session inode writer) (Some m) (N.of_nat (length m)) k0
              = (inr (N.of_nat (length m)), k')
              /\ device_read (session inode reader) (Some region) cap k'
                 = (inr (N.of_nat (length m), m ++ drop (length m) region), k')).
  { intros k0 Hreg0 Hmem0.
    destruct (device_write_stores k0 inode writer m (N.of_nat (length m)))
      as (k' & ch & Hwrite & Hch & Hl & Hst & _); try assumption; [lia|].
    exists k'. split; [exact Hwrite|].
    rewrite <- Hr in Hch.
    rewrite (device_read_message k' inode reader region cap ch);
      [|congruence|exact Hch|lia|lia|lia].
    rewrite Hst, Hl. unfold apply_censorship. rewrite Hcen. cbn.
    rewrite Nat2N.id, firstn_all. reflexivity. }
  split; [apply Hround; assumption|].
  intros earlier m1 He Hlen1.
  destruct (device_write_stores k inode earlier m1 (N.of_nat (length m1)))
    as (k1 & ch1 & Hwrite1 & Hch1 & _ & _ & Horacle); try assumption;
    [congruence|lia|].
  destruct (Hround k1) as (k2 & Hwrite2 & Hread2).
  - eapply lookup_channel_registered, Hch1.
  - eapply memory_available_oracle; eassumption.
  - exists k1, k2. auto.
Qed.

(** ** Censorship *)

(** C2. With the session's censorship flag set, a write of [b] (1 to 128
    bytes) succeeds and the channel then stores exactly [censor_spec b]: the
    bytes of [b] with every index [i >= 2], [(i - 2) mod 3 = 0], replaced by
    ['#'] and all others unchanged; a read returns that. For "ABCDEFGHI" the
    stored bytes are "AB#DE#GH#". *)
Theorem censored_write_stores_transform
  (k : kernel) (inode : inode_t) (state : fd_state_t) (b : list byte) :
  endpoint_registered k inode ->
  memory_available k ->
  channel_id state <> 0 ->
  censorship_enabled state <> 0 ->
  (1 <= N.of_nat (length b) <= MAX_MESSAGE_LENGTH)%N ->
  (exists k' ch,
      device_write (session inode state) (Some b) (N.of_nat (length b)) k
      = (inr (N.of_nat (length b)), k')
      /\ lookup_channel k' (iminor inode) (channel_id state) = Some ch
      /\ message_length ch = N.of_nat (length b)
      /\ stored_message ch = censor_spec b
      /\ forall (reader : fd_state_t) (region : list byte) (cap : N),
          channel_id reader = channel_id state ->
          (N.of_nat (length b) <= cap)%N ->
          (cap <= N.of_nat (length region))%N ->
          device_read (session inode reader) (Some region) cap k'
          = (inr (N.of_nat (length b), censor_spec b ++ drop (length b) region), k'))
  /\ (forall i : nat,
         censor_spec b !! i
         = (fun x => if ((2 <=? N.of_nat i) && ((N.of_nat i - 2) mod 3 =? 0))%N
                     then "#"%byte else x) <$> b !! i)
  /\ (b = list_byte_of_string "ABCDEFGHI" ->
      censor_spec b = list_byte_of_string "AB#DE#GH#").
Proof.
  intros Hreg Hmem Hc Hcen Hlen.
  split; [|split].
  - destruct (device_write_stores k inode state b (N.of_nat (length b)))
      as (k' & ch & Hwrite & Hch & Hl & Hst & _); try assumption; [lia|].
    assert (Hstored : stored_message ch = censor_spec b).
    { rewrite Hst. unfold apply_censorship.
      apply Z.eqb_neq in Hcen. rewrite Hcen.
      rewrite Nat2N.id, firstn_all. apply censor_loop_spec. }
    exists k', ch. repeat split; try assumption.
    intros reader region cap Hr Hcap Hregion.
    rewrite <- Hr in Hch.
    rewrite (device_read_message k' inode reader region cap ch);
      [|congruence|exact Hch|lia|lia|lia].
    rewrite Hstored, Hl, Nat2N.id. reflexivity.
  - intros i. unfold censor_spec. rewrite list_lookup_imap. reflexivity.
  - intros ->. reflexivity.
Qed.

(** C10. The censorship loop is idempotent: run over its own output it
    changes nothing. So a write, with censorship enabled, of a message that
    is already censored stores that message unchanged. *)
Theorem censorship_idempotent (m : list byte) :
  censor_loop 2 (N.of_nat (length m)) (censor_loop 2 (N.of_nat (length m)) m)
  = censor_loop 2 (N.of_nat (length m)) m
  /\ forall (k : kernel) (inode : inode_t) (state : fd_state_t),
      endpoint_registered k inode ->
      memory_available k ->
      channel_id state <> 0 ->
      censorship_enabled state <> 0 ->
      (1 <= N.of_nat (length m) <= MAX_MESSAGE_LENGTH)%N ->
      exists k' ch,
        device_write (session inode state)
          (Some (censor_loop 2 (N.of_nat (length m)) m)) (N.of_nat (length m)) k
        = (inr (N.of_nat (length m)), k')
        /\ lookup_channel k' (iminor inode) (channel_id state) = Some ch
        /\ stored_message ch = censor_loop 2 (N.of_nat (length m)) m.
Proof.
  assert (Hidem : censor_loop 2 (N.of_nat (length m))
                    (censor_loop 2 (N.of_nat (length m)) m)
                  = censor_loop 2 (N.of_nat (length m)) m).
  { rewrite censor_loop_spec.
    rewrite <- (censor_spec_length m) at 1.
    rewrite censor_loop_spec. apply censor_spec_idempotent. }
  split; [exact Hidem|].
  intros k inode state Hreg Hmem Hc Hcen Hlen.
  set (cm := censor_loop 2 (N.of_nat (length m)) m) in *.
  assert (Hcm : length cm = length m) by apply censor_loop_length.
  destruct (device_write_stores k inode state cm (N.of_nat (length m)))
    as (k' & ch & Hwrite & Hch & _ & Hst & _); try assumption; [lia|].
  exists k', ch. repeat split; try assumption.
  rewrite Hst. unfold apply_censorship.
  apply Z.eqb_neq in Hcen. rewrite Hcen.
  rewrite <- Hcm at 2. rewrite Nat2N.id, firstn_all. exact Hidem.
Qed.

(** ** Errors of read and write *)

(** C4. When the selected channel holds a message of length [L], a read
    with capacity below [L] fails with [BufferTooSmall] and leaves the kernel
    state as it was; a following read with capacity at least [L] returns [L]
    and the [L] stored bytes. *)
Theorem short_read_is_non_destructive
  (k : kernel) (inode : inode_t) (state : fd_state_t) (ch : channel_t)
  (region region' : list byte) (cap cap' : N) :
  channel_id state <> 0 ->
  lookup_channel k (iminor inode) (channel_id state) = Some ch ->
  (cap < message_length ch)%N ->
  (message_length ch <= cap')%N ->
  (cap' <= N.of_nat (length region'))%N ->
  exists k',
    device_read (session inode state) (Some region) cap k = (inl BufferTooSmall, k')
    /\ k' = k
    /\ lookup_channel k' (iminor inode) (channel_id state) = Some ch
    /\ device_read (session inode state) (Some region') cap' k'
       = (inr (message_length ch,
               stored_message ch ++ drop (N.to_nat (message_length ch)) region'), k').
Proof.
  intros Hc Hch Hcap Hcap' Hregion.
  assert (Hpos : (0 < message_length ch)%N) by lia.
  exists k. split; [|split; [reflexivity|split; [exact Hch|]]].
  - rewrite (device_read_channel k inode state region cap ch Hc Hch).
    destruct (message_length ch =? 0)%N eqn:E0; [apply N.eqb_eq in E0; lia|].
    apply N.ltb_lt in Hcap. rewrite Hcap. reflexivity.
  - apply device_read_message; assumption.
Qed.

(** C5. Through a session with a selected (nonzero) channel, a write of
    length 0 and a write of any length above 128 (129 included) fail with
    [MessageTooLarge], and a write of length exactly 128 succeeds. *)
Theorem write_length_bounds
  (k : kernel) (inode : inode_t) (state : fd_state_t) (ubuf : list byte) :
  channel_id state <> 0 ->
  device_write (session inode state) (Some ubuf) 0 k = (inl MessageTooLarge, k)
  /\ device_write (session inode state) (Some ubuf) 129 k = (inl MessageTooLarge, k)
  /\ (forall len : N,
         (128 < len)%N ->
         device_write (session inode state) (Some ubuf) len k = (inl MessageTooLarge, k))
  /\ (endpoint_registered k inode ->
      memory_available k ->
      (128 <= N.of_nat (length ubuf))%N ->
      exists k', device_write (session inode state) (Some ubuf) 128 k = (inr 128%N, k')).
Proof.
  intros Hc.
  assert (Hbig : forall len : N,
             (128 < len)%N ->
             device_write (session inode state) (Some ubuf) len k
             = (inl MessageTooLarge, k)).
  { intros len Hlen. apply Z.eqb_neq in Hc.
    unfold device_write, session. kern_unfold. rewrite Hc.
    replace (MAX_MESSAGE_LENGTH <? len)%N with true
      by (symmetry; apply N.ltb_lt; exact Hlen).
    rewrite orb_true_r. reflexivity. }
  repeat split.
  - apply Z.eqb_neq in Hc.
    unfold device_write, session. kern_unfold. rewrite Hc. reflexivity.
  - apply Hbig. lia.
  - exact Hbig.
  - intros Hreg Hmem Hfit.
    destruct (device_write_stores k inode state ubuf 128)
      as (k' & ch & Hwrite & _); try assumption.
    + unfold MAX_MESSAGE_LENGTH. lia.
    + exists k'. exact Hwrite.
Qed.

Lemma device_open_fresh k k' inode file f :
  device_open inode file k = (inr f, k') ->
  private_data f = Some fresh_state
  /\ file_inode f = file_inode file
  /\ endpoint_registered k' inode.
Proof.
  unfold device_open, endpoint_registered. kern_unfold.
  destruct (find_slot (iminor inode) (slot_list_head k)) as [slot|] eqn:Hslot.
  - kern_simpl. destruct (kmalloc_oracle k (kmalloc_calls k)); [|discriminate].
    intros [= <- <-]. kern_simpl. rewrite Hslot. repeat split. discriminate.
  - kern_simpl. destruct (kmalloc_oracle k (kmalloc_calls k)); [|discriminate].
    kern_simpl. destruct (kmalloc_oracle k (S (kmalloc_calls k))); [|discriminate].
    intros [= <- <-]. kern_simpl. cbn. rewrite Z.eqb_refl. repeat split. discriminate.
Qed.

(** A session with no channel selected fails every write and read. *)
Lemma unselected_invalid_channel f k buffer len :
  unselected f ->
  device_write (Some f) buffer len k = (inl InvalidChannel, k)
  /\ device_read (Some f) buffer len k = (inl InvalidChannel, k).
Proof.
  intros (state & Hpd & Hc).
  unfold device_write, device_read. kern_unfold. rewrite Hpd.
  destruct buffer; kern_simpl; rewrite ?Hc; split; reflexivity.
Qed.

(** An ioctl that selects no channel leaves the session without one. *)
Lemma device_ioctl_unselected f cmd param k f' k' :
  unselected f ->
  selects_no_channel (cmd, param) ->
  device_ioctl (Some f) cmd param k = (inr f', k') ->
  unselected f'.
Proof.
  intros (state & Hpd & Hc) Hno. unfold selects_no_channel in Hno. cbn in Hno.
  unfold device_ioctl, unselected. kern_unfold. rewrite Hpd. kern_simpl.
  kern_cases; intros [= <- _]; cbn [private_data];
    eexists; (split; [reflexivity|]); cbn [channel_id]; try exact Hc.
  destruct Hno as [Hcmd|Huint]; [|exact Huint].
  match goal with H : (cmd =? MSG_SLOT_CHANNEL) = true |- _ => apply Z.eqb_eq in H end.
  contradiction.
Qed.

Lemma ioctls_unselected calls f k :
  unselected f -> Forall selects_no_channel calls -> unselected (ioctls calls f k).
Proof.
  revert f. induction calls as [|[cmd param] calls IH]; intros f Hf Hall;
    cbn [ioctls]; [exact Hf|].
  apply Forall_cons in Hall as [Hno Hall].
  destruct (device_ioctl (Some f) cmd param k) as [[e|f'] k'] eqn:Hio.
  - apply IH; assumption.
  - apply IH; [|exact Hall]. eapply device_ioctl_unselected; eassumption.
Qed.

(** C6. On a session with no channel configured ([channel_id] is 0), every
    write and every read, in any kernel state and with any buffer and
    length, fails with [InvalidChannel] and leaves the kernel state, hence
    every channel, unchanged. This holds of the session as [device_open]
    leaves it, of that session after any ioctl calls that select no channel
    (setting the censorship flag, refused calls), and of every session whose
    [channel_id] is 0, whatever its censorship flag. *)
Theorem fresh_session_invalid_channel
  (k k' : kernel) (inode : inode_t) (file f : file_t) :
  device_open inode file k = (inr f, k') ->
  (exists state, private_data f = Some state /\ channel_id state = 0)
  /\ (forall (k'' : kernel) (buffer : option (list byte)) (len : N),
         device_write (Some f) buffer len k'' = (inl InvalidChannel, k'')
         /\ device_read (Some f) buffer len k'' = (inl InvalidChannel, k''))
  /\ (forall (calls : list (Z * Z)) (k1 k'' : kernel)
             (buffer : option (list byte)) (len : N),
         Forall selects_no_channel calls ->
         device_write (Some (ioctls calls f k1)) buffer len k''
         = (inl InvalidChannel, k'')
         /\ device_read (Some (ioctls calls f k1)) buffer len k''
            = (inl InvalidChannel, k''))
  /\ (forall (finode : inode_t) (state : fd_state_t) (k'' : kernel)
             (buffer : option (list byte)) (len : N),
         channel_id state = 0 ->
         device_write (session finode state) buffer len k''
         = (inl InvalidChannel, k'')
         /\ device_read (session finode state) buffer len k''
            = (inl InvalidChannel, k'')).
Proof.
  intros Hopen. apply device_open_fresh in Hopen as (Hpd & _ & _).
  assert (Hf : unselected f) by (exists fresh_state; split; [exact Hpd|reflexivity]).
  split; [exact Hf|split; [|split]].
  - intros k'' buffer len. apply unselected_invalid_channel, Hf.
  - intros calls k1 k'' buffer len Hall.
    apply unselected_invalid_channel, ioctls_unselected; assumption.
  - intros finode state k'' buffer len Hc.
    apply unselected_invalid_channel. exists state. split; [reflexivity|exact Hc].
Qed.

(** A write that fails leaves the slots as they were, or has created its
    channel, empty. *)
Lemma device_write_failure k k' inode state buffer len e :
  device_write (session inode state) buffer len k = (inl e, k') ->
  slot_list_head k' = slot_list_head k
  \/ (lookup_channel k (iminor inode) (channel_id state) = None
      /\ exists garbage,
          lookup_channel k' (iminor inode) (channel_id state)
          = Some (mk_channel (channel_id state) garbage 0)).
Proof.
  unfold device_write, session, lookup_channel. kern_unfold.
  kern_cases; intros [= <- <-]; kern_simpl; try (left; reflexivity).
  all: right; split;
    [unfold channel_of;
     repeat match goal with H : _ = _ :> option _ |- _ => rewrite H end;
     reflexivity
    |eexists; apply channel_of_push_new; congruence].
Qed.

Lemma unwritten_slots k k' m c :
  slot_list_head k' = slot_list_head k -> unwritten k m c -> unwritten k' m c.
Proof. unfold unwritten, lookup_channel. intros ->. exact id. Qed.

Lemma device_open_unwritten inode file k m c :
  unwritten k m c -> unwritten (snd (device_open inode file k)) m c.
Proof.
  intros Hu. unfold device_open. kern_unfold.
  kern_cases; cbn [snd];
    try (eapply unwritten_slots; [|exact Hu]; reflexivity).
  all: unfold unwritten, lookup_channel, channel_of in *; kern_simpl; cbn [find_slot minor].
  all: destruct (iminor inode =? m) eqn:E; [left; reflexivity|exact Hu].
Qed.

(** Only a successful write to a channel gives it a message. *)
Lemma exec_unwritten call k m c :
  unwritten k m c ->
  ~ (targets call m c /\ succeeds call k) ->
  unwritten (exec call k) m c.
Proof.
  intros Hu Hnot.
  destruct call as [inode file|file cmd param|file buffer len|file buffer len|inode file];
    cbn [exec].
  - apply device_open_unwritten, Hu.
  - eapply unwritten_slots; [|exact Hu].
    unfold device_ioctl. kern_unfold. kern_cases; reflexivity.
  - destruct file as [[inode [state|]]|];
      try (eapply unwritten_slots; [|exact Hu]; reflexivity).
    destruct (decide (iminor inode = m /\ channel_id state = c)) as [[<- <-]|Hother].
    + destruct (device_write (Some (mk_file inode (Some state))) buffer len k)
        as [[e|n] k'] eqn:Hw.
      * cbn [snd].
        destruct (device_write_failure _ _ _ _ _ _ _ Hw) as [Hsame|(_ & g & Hnew)].
        -- eapply unwritten_slots; eassumption.
        -- right. eexists. split; [exact Hnew|reflexivity].
      * exfalso. apply Hnot. split; [split; reflexivity|].
        exists n. cbn [succeeds]. rewrite Hw. reflexivity.
    + unfold unwritten.
      rewrite device_write_frame; [exact Hu|].
      intros f st [= <-] [= <-]. cbn.
      destruct (Z.eq_dec (iminor inode) m); [right|left]; intuition congruence.
  - eapply unwritten_slots; [|exact Hu].
    unfold device_read. kern_unfold. kern_cases; reflexivity.
  - eapply unwritten_slots; [|exact Hu].
    unfold device_release. kern_unfold. kern_cases; reflexivity.
Qed.

Lemma never_written_unwritten cs k m c :
  unwritten k m c -> never_written cs k m c -> unwritten (exec_all cs k) m c.
Proof.
  unfold exec_all. revert k.
  induction cs as [|call cs IH]; intros k Hu Hnw; cbn; [exact Hu|].
  destruct Hnw as [Hnot Hrest].
  apply IH; [apply exec_unwritten; assumption|exact Hrest].
Qed.

(** C7. When the selected channel has never been written, that is, the
    endpoint has no channel of that id or the channel's stored length is 0,
    a read fails with [ChannelEmpty], whatever its capacity. This is the
    state of a channel after the module is loaded and any calls are made
    none of which is a successful write to that channel. *)
Theorem read_unwritten_channel_empty
  (k : kernel) (inode : inode_t) (state : fd_state_t) (region : list byte) (len : N) :
  endpoint_registered k inode ->
  channel_id state <> 0 ->
  (lookup_channel k (iminor inode) (channel_id state) = None
   \/ (exists ch, lookup_channel k (iminor inode) (channel_id state) = Some ch
                  /\ message_length ch = 0%N) ->
   device_read (session inode state) (Some region) len k = (inl ChannelEmpty, k))
  /\ (forall (oracle : nat -> option (list byte)) (cs : list call),
         k = exec_all cs (module_init oracle) ->
         never_written cs (module_init oracle) (iminor inode) (channel_id state) ->
         device_read (session inode state) (Some region) len k = (inl ChannelEmpty, k)).
Proof.
  intros Hreg Hc.
  assert (Hempty : unwritten k (iminor inode) (channel_id state) ->
                   device_read (session inode state) (Some region) len k
                   = (inl ChannelEmpty, k)).
  { intros [Hnone|(ch & Hch & Hl)].
    - apply device_read_no_channel; assumption.
    - rewrite (device_read_channel k inode state region len ch Hc Hch).
      rewrite Hl. reflexivity. }
  split; [exact Hempty|].
  intros oracle cs -> Hnw. apply Hempty.
  apply never_written_unwritten; [left; reflexivity|exact Hnw].
Qed.

(** ** The stored length stays in range *)
Lemma lengths_store_slot m f l :
  (forall s, Forall length_ok (channels s) -> Forall length_ok (channels (f s))) ->
  lengths_in_range l -> lengths_in_range (store_slot m f l).
Proof.
  intros Hf. unfold lengths_in_range.
  induction l as [|a l IH]; cbn; [constructor|].
  intros Hl. apply Forall_cons in Hl as [Ha Hl].
  destruct (minor a =? m); apply Forall_cons; split; auto.
Qed.

Lemma lengths_push_channel c garbage s :
  Forall length_ok (channels s) ->
  Forall length_ok (channels (push_channel (mk_channel c garbage 0) s)).
Proof.
  intros Hs. cbn. apply Forall_cons. split; [|exact Hs].
  unfold length_ok, MAX_MESSAGE_LENGTH. cbn. lia.
Qed.

Lemma lengths_store_message c kbuf len s :
  (len <= MAX_MESSAGE_LENGTH)%N ->
  Forall length_ok (channels s) ->
  Forall length_ok (channels (store_message c kbuf len s)).
Proof.
  intros Hlen. cbn.
  induction (channels s) as [|a l IH]; cbn; [constructor|].
  intros Hl. apply Forall_cons in Hl as [Ha Hl].
  destruct (chan_id a =? c); apply Forall_cons; split; auto.
  unfold length_ok. cbn. lia.
Qed.

Lemma length_check_passed (len : N) :
  (len =? 0)%N || (MAX_MESSAGE_LENGTH <? len)%N = false ->
  (1 <= len <= MAX_MESSAGE_LENGTH)%N.
Proof.
  rewrite orb_false_iff, N.eqb_neq, N.ltb_ge. lia.
Qed.

Lemma device_write_lengths file buffer len k :
  lengths_in_range (slot_list_head k) ->
  lengths_in_range (slot_list_head (snd (device_write file buffer len k))).
Proof.
  intros Hinv. unfold device_write. kern_unfold.
  kern_cases; cbn [snd slot_list_head]; try exact Hinv;
    repeat match goal with
      | H : _ || _ = false |- _ => apply length_check_passed in H
      | |- lengths_in_range (store_slot _ (store_message _ _ _) _) =>
          apply lengths_store_slot;
          [intros ? ?; apply lengths_store_message; [lia|assumption]|]
      | |- lengths_in_range (store_slot _ (push_channel _) _) =>
          apply lengths_store_slot;
          [intros ? ?; apply lengths_push_channel; assumption|]
      end; exact Hinv.
Qed.

Lemma exec_lengths c k :
  lengths_in_range (slot_list_head k) ->
  lengths_in_range (slot_list_head (exec c k)).
Proof.
  intros Hinv. destruct c as [inode file|file cmd param|file buffer len|file buffer len|inode file];
    cbn [exec].
  - unfold device_open. kern_unfold.
    kern_cases; cbn [snd slot_list_head]; try exact Hinv;
      apply Forall_cons; (split; [constructor|exact Hinv]).
  - unfold device_ioctl. kern_unfold.
    kern_cases; cbn [snd slot_list_head]; exact Hinv.
  - apply device_write_lengths, Hinv.
  - unfold device_read. kern_unfold.
    kern_cases; cbn [snd slot_list_head]; exact Hinv.
  - unfold device_release. kern_unfold.
    kern_cases; cbn [snd slot_list_head]; exact Hinv.
Qed.

Lemma exec_all_lengths cs k :
  lengths_in_range (slot_list_head k) ->
  lengths_in_range (slot_list_head (exec_all cs k)).
Proof.
  unfold exec_all. revert k.
  induction cs as [|c cs IH]; intros k Hinv; cbn; [exact Hinv|].
  apply IH, exec_lengths, Hinv.
Qed.

(** C9. Every file operation (open, ioctl, write, read, release), called on
    any file with any arguments, keeps every channel's stored length in
    [[0, 128]]; so the lengths are in range in every state the module can
    reach after it is loaded. A channel that a write creates has length 0
    until the write completes, and a write that succeeds leaves in its
    channel the length it was given, which is in [[1, 128]]. *)
Theorem stored_lengths_in_range :
  (forall (c : call) (k : kernel),
      lengths_in_range (slot_list_head k) ->
      lengths_in_range (slot_list_head (exec c k)))
  /\ (forall (oracle : nat -> option (list byte)) (cs : list call),
         lengths_in_range (slot_list_head (exec_all cs (module_init oracle))))
  /\ (forall (k k' : kernel) (inode : inode_t) (state : fd_state_t)
             (buffer : option (list byte)) (len : N) (e : errno) (ch : channel_t),
         lookup_channel k (iminor inode) (channel_id state) = None ->
         device_write (session inode state) buffer len k = (inl e, k') ->
         lookup_channel k' (iminor inode) (channel_id state) = Some ch ->
         message_length ch = 0%N)
  /\ (forall (k k' : kernel) (inode : inode_t) (state : fd_state_t)
             (buffer : option (list byte)) (len n : N),
         device_write (session inode state) buffer len k = (inr n, k') ->
         n = len /\ (1 <= n <= 128)%N
         /\ exists ch, lookup_channel k' (iminor inode) (channel_id state) = Some ch
                       /\ message_length ch = n).
Proof.
  split; [exact exec_lengths|].
  split; [intros oracle cs; apply exec_all_lengths; constructor|].
  split.
  - intros k k' inode state buffer len e ch Hnone.
    unfold lookup_channel, channel_of in Hnone.
    unfold device_write, session, lookup_channel. kern_unfold.
    kern_cases; intros [= <- <-]; kern_simpl;
      try (rewrite channel_of_push_new by congruence; intros [= <-]; reflexivity).
    all: unfold channel_of; intros Hch.
    all: repeat match goal with
           | H : find_slot _ _ = _ |- _ => rewrite H in *; clear H
           end; congruence.
  - intros k k' inode state buffer len n.
    unfold device_write, session, lookup_channel. kern_unfold.
    kern_cases; intros [= <- <-]; kern_simpl;
      match goal with H : _ || _ = false |- _ => apply length_check_passed in H end;
      unfold MAX_MESSAGE_LENGTH in *; (split; [reflexivity|split; [lia|]]);
      rewrite channel_of_store_message.
    + unfold channel_of.
      repeat match goal with H : _ = Some _ |- _ => rewrite H end.
      cbn. eexists. split; reflexivity.
    + rewrite channel_of_push_new by congruence.
      cbn. eexists. split; reflexivity.
Qed.

(** * Concrete runs *)

(** The run of the specification's censorship example: load the module,
    open minor 0, enable censorship, select channel 7, write "ABCDEFGHI",
    read with capacity 128. *)
Example censorship_run :
  let run :=
    f <- device_open node0 (mk_file node0 None) ;;
    f <- device_ioctl (Some f) MSG_SLOT_SET_CEN 1 ;;
    f <- device_ioctl (Some f) MSG_SLOT_CHANNEL 7 ;;
    device_write (Some f) (Some (list_byte_of_string "ABCDEFGHI")) 9 ;;
    device_read (Some f) (Some user_page) 128 in
  fst (run (module_init zeroed))
  = inr (9%N, list_byte_of_string "AB#DE#GH#" ++ drop 9 user_page).
Proof. vm_compute. reflexivity. Qed.

(** An 8-byte message, a read with capacity 4, then a read with capacity 8. *)
Example short_read_run :
  let f := session node0 (mk_fd_state 3 0) in
  let k1 := snd (device_write f (Some (list_byte_of_string "12345678")) 8 booted) in
  fst (device_read f (Some user_page) 4 k1) = inl BufferTooSmall
  /\ slot_list_head (snd (device_read f (Some user_page) 4 k1)) = slot_list_head k1
  /\ fst (device_read f (Some (take 8 user_page)) 8 k1)
     = inr (8%N, list_byte_of_string "12345678").
Proof. vm_compute. repeat split. Qed.

(** A second message replaces the first, also when it is shorter. *)
Example overwrite_run :
  let f := session node0 (mk_fd_state 3 0) in
  let k1 := snd (device_write f (Some (list_byte_of_string "first message")) 13 booted) in
  let k2 := snd (device_write f (Some (list_byte_of_string "2nd")) 3 k1) in
  fst (device_read f (Some (take 16 user_page)) 16 k2)
  = inr (3%N, list_byte_of_string "2nd" ++ drop 3 (take 16 user_page)).
Proof. vm_compute. reflexivity. Qed.


(** The theorems at concrete inputs. *)

Lemma write_then_read_returns_message_instance :
  exists k',
    device_write (session node0 (mk_fd_state 1 0))
      (Some (list_byte_of_string "hello")) 5 booted = (inr 5%N, k')
    /\ device_read (session node0 (mk_fd_state 1 0)) (Some user_page) 128 k'
       = (inr (5%N, list_byte_of_string "hello" ++ drop 5 user_page), k').
Proof.
  apply (write_then_read_returns_message booted node0
           (mk_fd_state 1 0) (mk_fd_state 1 0)
           (list_byte_of_string "hello") user_page 128); by_evaluation.
Defined.

Lemma censored_write_stores_transform_instance :
  exists k' ch,
    device_write (session node0 (mk_fd_state 1 1))
      (Some (list_byte_of_string "ABCDEFGHI")) 9 booted = (inr 9%N, k')
    /\ lookup_channel k' 0 1 = Some ch
    /\ message_length ch = 9%N
    /\ stored_message ch = list_byte_of_string "AB#DE#GH#".
Proof.
  destruct (censored_write_stores_transform booted node0 (mk_fd_state 1 1)
              (list_byte_of_string "ABCDEFGHI"))
    as [(k' & ch & Hw & Hch & Hl & Hst & _) _]; try by_evaluation.
  exists k', ch. repeat split; assumption.
Defined.

Lemma censorship_idempotent_instance :
  exists k' ch,
    device_write (session node0 (mk_fd_state 1 1))
      (Some (list_byte_of_string "AB#DE#GH#")) 9 booted = (inr 9%N, k')
    /\ lookup_channel k' 0 1 = Some ch
    /\ stored_message ch = list_byte_of_string "AB#DE#GH#".
Proof.
  apply (proj2 (censorship_idempotent (list_byte_of_string "ABCDEFGHI"))
           booted node0 (mk_fd_state 1 1)); by_evaluation.
Defined.

Lemma short_read_is_non_destructive_instance :
  exists k',
    device_read (session node0 (mk_fd_state 3 0)) (Some user_page) 4 written
    = (inl BufferTooSmall, k')
    /\ k' = written
    /\ lookup_channel k' 0 3 = Some written_channel
    /\ device_read (session node0 (mk_fd_state 3 0)) (Some user_page) 8 k'
       = (inr (8%N, list_byte_of_string "12345678" ++ drop 8 user_page), k').
Proof.
  apply (short_read_is_non_destructive written node0 (mk_fd_state 3 0)
           written_channel user_page user_page 4 8); by_evaluation.
Defined.

Lemma write_length_bounds_instance :
  device_write (session node0 (mk_fd_state 1 0)) (Some user_page) 0 booted
  = (inl MessageTooLarge, booted)
  /\ device_write (session node0 (mk_fd_state 1 0)) (Some user_page) 129 booted
     = (inl MessageTooLarge, booted)
  /\ exists k',
      device_write (session node0 (mk_fd_state 1 0)) (Some user_page) 128 booted
      = (inr 128%N, k').
Proof.
  destruct (write_length_bounds booted node0 (mk_fd_state 1 0) user_page)
    as (H0 & H129 & _ & H128); [by_evaluation|].
  split; [exact H0|split; [exact H129|]].
  apply H128; by_evaluation.
Defined.

Lemma fresh_session_invalid_channel_instance :
  device_write (Some (mk_file node0 (Some fresh_state)))
    (Some (list_byte_of_string "hello")) 5 written
  = (inl InvalidChannel, written)
  /\ device_read (Some (mk_file node0 (Some fresh_state))) (Some user_page) 128 written
     = (inl InvalidChannel, written)
  /\ device_write (Some (mk_file node0 (Some (mk_fd_state 0 1))))
       (Some (list_byte_of_string "hello")) 5 written
     = (inl InvalidChannel, written)
  /\ device_read (session node0 (mk_fd_state 0 1)) (Some user_page) 128 written
     = (inl InvalidChannel, written).
Proof.
  destruct (fresh_session_invalid_channel (module_init zeroed) booted node0
              (mk_file node0 None) (mk_file node0 (Some fresh_state)))
    as (_ & Hfail & Hcalls & Hany); [by_evaluation|].
  split; [|split; [|split]].
  - apply (Hfail written (Some (list_byte_of_string "hello")) 5%N).
  - apply (Hfail written (Some user_page) 128%N).
  - apply (Hcalls [(MSG_SLOT_SET_CEN, 1)] written written
             (Some (list_byte_of_string "hello")) 5%N).
    apply Forall_cons. split; [left; cbn; discriminate|apply List.Forall_nil].
  - apply (Hany node0 (mk_fd_state 0 1) written (Some user_page) 128%N).
    reflexivity.
Defined.

Lemma read_unwritten_channel_empty_instance :
  device_read (session node0 (mk_fd_state 1 0)) (Some user_page) 128 booted
  = (inl ChannelEmpty, booted).
Proof.
  apply (read_unwritten_channel_empty booted node0 (mk_fd_state 1 0) user_page 128);
    try by_evaluation.
  left. by_evaluation.
Defined.

Lemma write_leaves_other_channels_instance :
  lookup_channel
    (snd (device_write (session node0 (mk_fd_state 4 0))
            (Some (list_byte_of_string "hello")) 5 written)) 0 3
  = lookup_channel written 0 3.
Proof.
  apply (write_leaves_other_channels written node0 (mk_fd_state 4 0)
           (Some (list_byte_of_string "hello")) 5 0 3).
  by_evaluation.
Defined.

Lemma stored_lengths_in_range_instance :
  (5 = 5)%N /\ (1 <= 5 <= 128)%N
  /\ exists ch,
      lookup_channel
        (snd (device_write (session node0 (mk_fd_state 4 0))
                (Some (list_byte_of_string "hello")) 5 written)) 0 4 = Some ch
      /\ message_length ch = 5%N.
Proof.
  apply (proj2 (proj2 (proj2 stored_lengths_in_range)) written
           (snd (device_write (session node0 (mk_fd_state 4 0))
                   (Some (list_byte_of_string "hello")) 5 written))
           node0 (mk_fd_state 4 0) (Some (list_byte_of_string "hello")) 5%N 5%N).
  by_evaluation.
Defined.

(** * Further properties of the module *)

(** ** Invariants kept by every file operation *)

Lemma Forall_store_channel (P : channel_t -> Prop) c g l :
  (forall ch, P ch -> P (g ch)) -> Forall P l -> Forall P (store_channel c g l).
Proof.
  intros Hg. induction l as [|a l IH]; cbn; [constructor|].
  intros Hl. apply Forall_cons in Hl as [Ha Hl].
  destruct (chan_id a =? c); apply Forall_cons; split; auto.
Qed.

Lemma Forall_store_slot (Q : slot_t -> Prop) m f l :
  (forall s, find_slot m l = Some s -> Q s -> Q (f s)) ->
  Forall Q l -> Forall Q (store_slot m f l).
Proof.
  induction l as [|a l IH]; cbn; [constructor|].
  intros Hf Hl. apply Forall_cons in Hl as [Ha Hl].
  destruct (minor a =? m); apply Forall_cons; split; auto.
Qed.

Lemma copy_from_user_length ubuf len kbuf :
  copy_from_user ubuf len = Some kbuf ->
  kbuf = take (N.to_nat len) ubuf /\ length kbuf = N.to_nat len.
Proof.
  unfold copy_from_user.
  destruct (len <=? N.of_nat (length ubuf))%N eqn:E; [|discriminate].
  intros [= <-]. apply N.leb_le in E. split; [reflexivity|].
  rewrite length_take. lia.
Qed.

Section ChannelInvariant.
Variable P : channel_t -> Prop.
Variable G : list byte -> Prop.
Hypothesis P_new : forall c garbage, c <> 0 -> G garbage -> P (mk_channel c garbage 0).
Hypothesis P_set :
  forall ch kbuf len,
    P ch -> (1 <= len <= MAX_MESSAGE_LENGTH)%N -> length kbuf = N.to_nat len ->
    P (set_message kbuf len ch).

Lemma device_write_all_channels file buffer len k :
  (forall n g, kmalloc_oracle k n = Some g -> G g) ->
  all_channels P (slot_list_head k) ->
  all_channels P (slot_list_head (snd (device_write file buffer len k))).
Proof.
  intros HG Hinv. unfold all_channels in *. unfold device_write. kern_unfold.
  kern_cases; cbn [snd slot_list_head]; try exact Hinv;
    repeat match goal with
      | H : _ || _ = false |- _ => apply length_check_passed in H
      | H : (_ =? 0) = false |- _ => apply Z.eqb_neq in H
      | H : copy_from_user _ _ = Some _ |- _ => apply copy_from_user_length in H as [_ H]
      | |- Forall _ (store_slot _ (store_message _ _ _) _) =>
          apply Forall_store_slot;
          [intros ? _ ?; cbn; apply Forall_store_channel;
           [intros ? ?; apply P_set;
            [assumption|assumption|rewrite apply_censorship_length; assumption]
           |assumption]|]
      | |- Forall _ (store_slot _ (push_channel _) _) =>
          apply Forall_store_slot;
          [intros ? _ ?; cbn; apply Forall_cons; split;
           [apply P_new; [assumption|eapply HG; eassumption]|assumption]|]
      end; exact Hinv.
Qed.

Lemma exec_all_channels call k :
  (forall n g, kmalloc_oracle k n = Some g -> G g) ->
  all_channels P (slot_list_head k) ->
  all_channels P (slot_list_head (exec call k)).
Proof.
  intros HG Hinv.
  destruct call as [inode file|file cmd param|file buffer len|file buffer len|inode file];
    cbn [exec].
  - unfold device_open. kern_unfold.
    kern_cases; cbn [snd slot_list_head]; try exact Hinv;
      apply Forall_cons; (split; [constructor|exact Hinv]).
  - unfold device_ioctl. kern_unfold.
    kern_cases; cbn [snd slot_list_head]; exact Hinv.
  - apply device_write_all_channels; assumption.
  - unfold device_read. kern_unfold.
    kern_cases; cbn [snd slot_list_head]; exact Hinv.
  - unfold device_release. kern_unfold.
    kern_cases; cbn [snd slot_list_head]; exact Hinv.
Qed.

Lemma exec_all_all_channels cs k :
  (forall n g, kmalloc_oracle k n = Some g -> G g) ->
  all_channels P (slot_list_head k) ->
  all_channels P (slot_list_head (exec_all cs k)).
Proof.
  unfold exec_all. revert k.
  induction cs as [|call cs IH]; intros k HG Hinv; cbn; [exact Hinv|].
  apply IH.
  - rewrite exec_oracle. exact HG.
  - apply exec_all_channels; assumption.
Qed.
End ChannelInvariant.

Lemma find_slot_In m l s : find_slot m l = Some s -> In s l.
Proof.
  induction l as [|a l IH]; cbn; [discriminate|].
  destruct (minor a =? m); [intros [= <-]; left; reflexivity|right; auto].
Qed.

Lemma find_channel_In c l ch : find_channel c l = Some ch -> In ch l.
Proof.
  induction l as [|a l IH]; cbn; [discriminate|].
  destruct (chan_id a =? c); [intros [= <-]; left; reflexivity|right; auto].
Qed.

(** What holds of all channels holds of the channel a traversal finds. *)
Lemma all_channels_lookup P k m c ch :
  all_channels P (slot_list_head k) -> lookup_channel k m c = Some ch -> P ch.
Proof.
  unfold all_channels, lookup_channel, channel_of. intros Hall Hch.
  destruct (find_slot m (slot_list_head k)) as [slot|] eqn:Hslot; [|discriminate].
  rewrite List.Forall_forall in Hall.
  specialize (Hall slot (find_slot_In _ _ _ Hslot)).
  rewrite List.Forall_forall in Hall.
  exact (Hall ch (find_channel_In _ _ _ Hch)).
Qed.

(** X1. A channel's id is never 0: every file operation, called with any
    arguments, keeps all channel ids nonzero, so in every state reached
    after the module is loaded a channel found under id [c] has [c <> 0]. *)
Theorem channel_ids_nonzero :
  (forall (call : call) (k : kernel),
      all_channels (fun ch => chan_id ch <> 0) (slot_list_head k) ->
      all_channels (fun ch => chan_id ch <> 0) (slot_list_head (exec call k)))
  /\ (forall (oracle : nat -> option (list byte)) (cs : list call) (m c : Z)
             (ch : channel_t),
         lookup_channel (exec_all cs (module_init oracle)) m c = Some ch ->
         c <> 0 /\ chan_id ch = c).
Proof.
  split.
  - intros call k. apply (exec_all_channels _ (fun _ => True)); auto.
  - intros oracle cs m c ch Hch.
    assert (Hc : chan_id ch = c).
    { unfold lookup_channel, channel_of in Hch.
      destruct (find_slot m _); [eapply find_channel_id; eassumption|discriminate]. }
    split; [|exact Hc]. rewrite <- Hc.
    eapply (all_channels_lookup (fun ch => chan_id ch <> 0)); [|exact Hch].
    apply (exec_all_all_channels _ (fun _ => True)); auto.
    apply List.Forall_nil.
Qed.

Lemma memcpy_length dst src len :
  length src = N.to_nat len ->
  length (memcpy dst src len) = Nat.max (N.to_nat len) (length dst).
Proof.
  intros Hsrc. unfold memcpy.
  rewrite length_app, length_take, length_drop. lia.
Qed.


(** X3. [memcpy] never writes past the array: when the allocator hands out
    blocks that cover [char message[128]], every file operation keeps every
    channel's array at exactly 128 bytes, so this holds in every state
    reached after the module is loaded. *)
Theorem message_array_keeps_its_size :
  (forall (call : call) (k : kernel),
      blocks_sized k ->
      all_channels array_sized (slot_list_head k) ->
      all_channels array_sized (slot_list_head (exec call k)))
  /\ (forall (oracle : nat -> option (list byte)) (cs : list call) (m c : Z)
             (ch : channel_t),
         blocks_sized (module_init oracle) ->
         lookup_channel (exec_all cs (module_init oracle)) m c = Some ch ->
         length (message ch) = 128%nat).
Proof.
  assert (Hnew : forall (c : Z) (garbage : list byte),
             c <> 0 -> length garbage = N.to_nat MAX_MESSAGE_LENGTH ->
             array_sized (mk_channel c garbage 0)).
  { intros c garbage _ Hg. exact Hg. }
  assert (Hset : forall ch kbuf len,
             array_sized ch -> (1 <= len <= MAX_MESSAGE_LENGTH)%N ->
             length kbuf = N.to_nat len -> array_sized (set_message kbuf len ch)).
  { intros ch kbuf len Hch Hlen Hk. unfold array_sized, set_message in *. cbn.
    rewrite memcpy_length by exact Hk. lia. }
  split.
  - intros call k Hblocks.
    apply (exec_all_channels _ (fun g => length g = N.to_nat MAX_MESSAGE_LENGTH));
      auto.
  - intros oracle cs m c ch Hblocks Hch.
    change 128%nat with (N.to_nat MAX_MESSAGE_LENGTH).
    eapply (all_channels_lookup array_sized); [|exact Hch].
    apply (exec_all_all_channels _ (fun g => length g = N.to_nat MAX_MESSAGE_LENGTH));
      auto.
    apply List.Forall_nil.
Qed.

(** ** Find-or-create never duplicates *)

Lemma map_minor_store_slot m f l :
  (forall s, minor (f s) = minor s) ->
  map minor (store_slot m f l) = map minor l.
Proof.
  intros Hf. induction l as [|a l IH]; cbn; [reflexivity|].
  destruct (minor a =? m); cbn; [rewrite Hf|rewrite IH]; reflexivity.
Qed.

Lemma map_id_store_channel c g l :
  (forall ch, chan_id (g ch) = chan_id ch) ->
  map chan_id (store_channel c g l) = map chan_id l.
Proof.
  intros Hg. induction l as [|a l IH]; cbn; [reflexivity|].
  destruct (chan_id a =? c); cbn; [rewrite Hg|rewrite IH]; reflexivity.
Qed.

Lemma find_slot_None m l : find_slot m l = None -> m ∉ map minor l.
Proof.
  induction l as [|a l IH]; cbn; [intros _; apply not_elem_of_nil|].
  destruct (minor a =? m) eqn:E; [discriminate|].
  apply Z.eqb_neq in E. intros H. apply not_elem_of_cons. split; [congruence|auto].
Qed.

Lemma find_channel_None c l : find_channel c l = None -> c ∉ map chan_id l.
Proof.
  induction l as [|a l IH]; cbn; [intros _; apply not_elem_of_nil|].
  destruct (chan_id a =? c) eqn:E; [discriminate|].
  apply Z.eqb_neq in E. intros H. apply not_elem_of_cons. split; [congruence|auto].
Qed.

Lemma unique_keys_push m c garbage l s :
  find_slot m l = Some s ->
  find_channel c (channels s) = None ->
  unique_keys l ->
  unique_keys (store_slot m (push_channel (mk_channel c garbage 0)) l).
Proof.
  intros Hs Hc [Hminors Hids]. split.
  - rewrite map_minor_store_slot by reflexivity. exact Hminors.
  - apply Forall_store_slot; [|exact Hids].
    intros s' Hs' Hnd. rewrite Hs in Hs'. injection Hs' as <-.
    cbn. apply NoDup_cons. split; [apply find_channel_None, Hc|exact Hnd].
Qed.

Lemma unique_keys_store_message m c kbuf len l :
  unique_keys l -> unique_keys (store_slot m (store_message c kbuf len) l).
Proof.
  intros [Hminors Hids]. split.
  - rewrite map_minor_store_slot by reflexivity. exact Hminors.
  - apply Forall_store_slot; [|exact Hids].
    intros s' _ Hnd. cbn. rewrite map_id_store_channel by reflexivity. exact Hnd.
Qed.

Lemma find_slot_store_slot_Some m f l s :
  (forall s, minor (f s) = minor s) ->
  find_slot m l = Some s -> find_slot m (store_slot m f l) = Some (f s).
Proof. intros Hf Hs. rewrite find_slot_store_slot by exact Hf. rewrite Hs. reflexivity. Qed.

Lemma exec_unique_keys call k :
  unique_keys (slot_list_head k) -> unique_keys (slot_list_head (exec call k)).
Proof.
  intros Hinv.
  destruct call as [inode file|file cmd param|file buffer len|file buffer len|inode file];
    cbn [exec].
  - unfold device_open. kern_unfold.
    kern_cases; cbn [snd slot_list_head]; try exact Hinv.
    all: destruct Hinv as [Hminors Hids]; split; cbn;
      [apply NoDup_cons; split; [apply find_slot_None; assumption|exact Hminors]
      |apply Forall_cons; split; [apply NoDup_nil_2|exact Hids]].
  - unfold device_ioctl. kern_unfold.
    kern_cases; cbn [snd slot_list_head]; exact Hinv.
  - unfold device_write. kern_unfold.
    kern_cases; cbn [snd slot_list_head]; try exact Hinv;
      repeat first
        [ apply unique_keys_store_message
        | eapply unique_keys_push; [eassumption|eassumption|] ];
      exact Hinv.
  - unfold device_read. kern_unfold.
    kern_cases; cbn [snd slot_list_head]; exact Hinv.
  - unfold device_release. kern_unfold.
    kern_cases; cbn [snd slot_list_head]; exact Hinv.
Qed.

(** X4. Run one call at a time, find-or-create does not duplicate a key:
    every file operation, executed from its first line to its return with
    no other call in between, keeps the minors of the slots pairwise
    distinct and, in each slot, the ids of the channels pairwise distinct;
    so the registry reached from module load by any sequence of such calls
    has one slot per minor and one channel per id. The statement is about
    sequential executions only ([exec_all] runs the calls one after
    another): the source takes no lock between its search and its insert,
    so two opens of a new minor, or two writes to a new channel, that
    overlap in time are outside it. *)
Theorem registry_keys_are_unique :
  (forall (call : call) (k : kernel),
      unique_keys (slot_list_head k) -> unique_keys (slot_list_head (exec call k)))
  /\ (forall (oracle : nat -> option (list byte)) (cs : list call),
         unique_keys (slot_list_head (exec_all cs (module_init oracle))))
  /\ (forall (oracle : nat -> option (list byte)) (cs : list call) (m : Z),
         length (List.filter (fun s => (minor s =? m)%Z)
                   (slot_list_head (exec_all cs (module_init oracle)))) <= 1)%nat.
Proof.
  assert (Hall : forall cs k, unique_keys (slot_list_head k) ->
                              unique_keys (slot_list_head (exec_all cs k))).
  { unfold exec_all. intros cs. induction cs as [|call cs IH]; intros k Hk; cbn;
      [exact Hk|]. apply IH, exec_unique_keys, Hk. }
  assert (Hinit : forall oracle, unique_keys (slot_list_head (module_init oracle))).
  { intros oracle. split; [apply NoDup_nil_2|apply List.Forall_nil]. }
  split; [exact exec_unique_keys|].
  split; [intros oracle cs; apply Hall, Hinit|].
  intros oracle cs m.
  destruct (Hall cs _ (Hinit oracle)) as [Hminors _].
  induction (slot_list_head (exec_all cs (module_init oracle))) as [|a l IH];
    cbn; [lia|].
  apply NoDup_cons in Hminors as [Hnotin Hnd].
  destruct (minor a =? m) eqn:E; [|apply IH, Hnd].
  apply Z.eqb_eq in E. subst m. cbn.
  assert (Hnone : List.filter (fun s => minor s =? minor a) l = []).
  { clear -Hnotin. induction l as [|b l IH]; cbn in *; [reflexivity|].
    apply not_elem_of_cons in Hnotin as [Hne Hnotin].
    destruct (minor b =? minor a) eqn:E.
    - apply Z.eqb_eq in E. congruence.
    - apply IH, Hnotin. }
  rewrite Hnone. cbn. lia.
Qed.

(** ** What each call changes *)

Lemma device_open_lookup inode file k m c :
  lookup_channel (snd (device_open inode file k)) m c = lookup_channel k m c.
Proof.
  unfold device_open, lookup_channel. kern_unfold.
  kern_cases; cbn [snd slot_list_head]; try reflexivity.
  all: unfold channel_of; cbn [find_slot minor].
  all: destruct (iminor inode =? m) eqn:E; [|reflexivity].
  all: apply Z.eqb_eq in E; subst m.
  all: match goal with H : find_slot _ _ = None |- _ => rewrite H end; reflexivity.
Qed.

Lemma not_targets_write f state buffer len m c :
  private_data f = Some state ->
  ~ targets (Write (Some f) buffer len) m c ->
  iminor (file_inode f) <> m \/ channel_id state <> c.
Proof.
  intros Hpd Hnot. cbn in Hnot. rewrite Hpd in Hnot.
  destruct (Z.eq_dec (iminor (file_inode f)) m); [right|left; assumption].
  intros Hc. apply Hnot. split; assumption.
Qed.

Lemma exec_frame call k m c :
  ~ targets call m c ->
  lookup_channel (exec call k) m c = lookup_channel k m c.
Proof.
  intros Hnot.
  destruct call as [inode file|file cmd param|file buffer len|file buffer len|inode file];
    cbn [exec].
  - apply device_open_lookup.
  - unfold device_ioctl, lookup_channel. kern_unfold. kern_cases; reflexivity.
  - apply device_write_frame. intros f state -> Hpd.
    eapply not_targets_write; eassumption.
  - unfold device_read, lookup_channel. kern_unfold. kern_cases; reflexivity.
  - unfold device_release, lookup_channel. kern_unfold. kern_cases; reflexivity.
Qed.

(** X5. Only a write to a channel changes it: every call that is not a write
    through a session bound to channel [c] of the endpoint [m] (an open, an
    ioctl, a read, a release, or a write bound to another channel) leaves
    that channel exactly as it was, absent or present. *)
Theorem only_a_write_changes_a_channel
  (call : call) (k : kernel) (m c : Z) :
  ~ targets call m c ->
  lookup_channel (exec call k) m c = lookup_channel k m c
  /\ (unwritten (exec call k) m c <-> unwritten k m c).
Proof.
  intros Hnot. pose proof (exec_frame call k m c Hnot) as Hframe.
  split; [exact Hframe|]. unfold unwritten. rewrite Hframe. reflexivity.
Qed.

(** A write that returns a byte count, read backwards. *)
Lemma device_write_inv_success file buffer len k n k' :
  device_write file buffer len k = (inr n, k') ->
  exists inode state ubuf kbuf ch,
    file = session inode state
    /\ buffer = Some ubuf
    /\ channel_id state <> 0
    /\ n = len
    /\ (1 <= len <= MAX_MESSAGE_LENGTH)%N
    /\ copy_from_user ubuf len = Some kbuf
    /\ endpoint_registered k inode
    /\ lookup_channel k' (iminor inode) (channel_id state) = Some ch
    /\ message_length ch = len
    /\ stored_message ch = apply_censorship state len kbuf
    /\ kmalloc_oracle k' = kmalloc_oracle k.
Proof.
  destruct file as [[inode [state|]]|]; [|discriminate..].
  destruct buffer as [ubuf|]; [|discriminate].
  unfold device_write, session, lookup_channel, endpoint_registered. kern_unfold.
  kern_cases; intros [= <- <-]; kern_simpl.
  all: match goal with H : _ || _ = false |- _ => apply length_check_passed in H end.
  all: match goal with H : (_ =? 0) = false |- _ => apply Z.eqb_neq in H end.
  all: match goal with
       | H : copy_from_user _ _ = Some ?kb |- _ =>
           pose proof (proj2 (copy_from_user_length _ _ _ H)) as Hkl;
           exists inode, state, ubuf, kb
       end.
  - rewrite channel_of_store_message. unfold channel_of.
    repeat match goal with H : _ = Some _ :> option _ |- _ => rewrite H end.
    cbn [fmap option_fmap option_map].
    eexists. repeat split; try assumption; try congruence; try lia.
    apply stored_message_set_message. rewrite apply_censorship_length. exact Hkl.
  - rewrite channel_of_store_message, channel_of_push_new by congruence.
    cbn [fmap option_fmap option_map].
    eexists. repeat split; try assumption; try congruence; try lia.
    apply stored_message_set_message. rewrite apply_censorship_length. exact Hkl.
Qed.

(** X6. Whenever a write returns a byte count, the count is the length it
    was given, between 1 and 128 and within the caller's buffer, and the
    channel of the session then holds exactly the first [len] bytes of the
    buffer, passed through the censorship transform when the session's flag
    is set; no other channel has changed. No assumption is made on the
    allocator or on the state before. *)
Theorem successful_write_stores_its_bytes
  (file : option file_t) (buffer : option (list byte)) (len n : N) (k k' : kernel) :
  device_write file buffer len k = (inr n, k') ->
  exists inode state ubuf ch,
    file = session inode state
    /\ buffer = Some ubuf
    /\ channel_id state <> 0
    /\ n = len
    /\ (1 <= len <= 128)%N
    /\ (len <= N.of_nat (length ubuf))%N
    /\ lookup_channel k' (iminor inode) (channel_id state) = Some ch
    /\ message_length ch = len
    /\ stored_message ch
       = (if censorship_enabled state =? 0 then take (N.to_nat len) ubuf
          else censor_spec (take (N.to_nat len) ubuf))
    /\ forall m c, (iminor inode, channel_id state) <> (m, c) ->
                   lookup_channel k' m c = lookup_channel k m c.
Proof.
  intros Hw.
  destruct (device_write_inv_success _ _ _ _ _ _ Hw)
    as (inode & state & ubuf & kbuf & ch & -> & -> & Hc & -> & Hlen & Hcopy
        & _ & Hch & Hl & Hst & _).
  exists inode, state, ubuf, ch.
  destruct (copy_from_user_length _ _ _ Hcopy) as [-> Hkl].
  assert (Hfit : (len <= N.of_nat (length ubuf))%N).
  { unfold copy_from_user in Hcopy.
    destruct (len <=? N.of_nat (length ubuf))%N eqn:E; [|discriminate].
    apply N.leb_le, E. }
  unfold MAX_MESSAGE_LENGTH in Hlen.
  repeat (split; [first [reflexivity|assumption]|]).
  split.
  - rewrite Hst. unfold apply_censorship.
    destruct (censorship_enabled state =? 0); [reflexivity|].
    rewrite <- censor_loop_spec. rewrite Hkl, N2Nat.id. reflexivity.
  - intros m c Hne.
    replace k' with (snd (device_write (session inode state) (Some ubuf) len k))
      by (rewrite Hw; reflexivity).
    apply device_write_frame. intros f st [= <-] [= <-]. cbn.
    destruct (Z.eq_dec (iminor inode) m); [right|left]; congruence.
Qed.

Lemma exec_persist (call : call) (k : kernel) (m c : Z) (ch : channel_t) :
  lookup_channel k m c = Some ch ->
  (exists ch', lookup_channel (exec call k) m c = Some ch')
  /\ (~ (targets call m c /\ succeeds call k) ->
      lookup_channel (exec call k) m c = Some ch).
Proof.
  intros Hch.
  assert (Hother : ~ targets call m c ->
                   lookup_channel (exec call k) m c = Some ch).
  { intros Hnot. rewrite exec_frame by exact Hnot. exact Hch. }
  destruct call as [inode file|file cmd param|file buffer len|file buffer len|inode file];
    try (split; [eexists|intros _]; apply Hother; cbn; tauto).
  destruct file as [[inode [state|]]|];
    try (split; [eexists|intros _]; apply Hother; cbn; tauto).
  destruct (decide (iminor inode = m /\ channel_id state = c)) as [[<- <-]|Hne];
    [|split; [eexists|intros _]; apply Hother; cbn; tauto].
  cbn [exec].
  destruct (device_write (Some (mk_file inode (Some state))) buffer len k)
    as [[e|n] k'] eqn:Hw; cbn [snd].
  - assert (Hsame : lookup_channel k' (iminor inode) (channel_id state) = Some ch).
    { destruct (device_write_failure _ _ _ _ _ _ _ Hw) as [Hslots|(Hnone & _)];
        [|congruence].
      unfold lookup_channel in *. rewrite Hslots. exact Hch. }
    split; [eexists|intros _]; exact Hsame.
  - split.
    + destruct (device_write_inv_success _ _ _ _ _ _ Hw)
        as (inode' & state' & ubuf & kbuf & ch' & [= <- <-] & _ & _ & _ & _ & _
            & _ & Hch' & _).
      exists ch'. exact Hch'.
    + intros Hnot. exfalso. apply Hnot. split; [split; reflexivity|].
      exists n. cbn [succeeds]. rewrite Hw. reflexivity.
Qed.

(** X7. Channels are never removed, and a channel's record changes only by a
    successful write to it: after any sequence of calls a channel that
    existed still exists, and if none of the calls is a successful write
    bound to it, it is the same record (same array, same stored length). *)
Theorem channels_persist (cs : list call) (k : kernel) (m c : Z) (ch : channel_t) :
  lookup_channel k m c = Some ch ->
  (exists ch', lookup_channel (exec_all cs k) m c = Some ch')
  /\ (never_written cs k m c -> lookup_channel (exec_all cs k) m c = Some ch).
Proof.
  unfold exec_all. revert k ch.
  induction cs as [|call cs IH]; intros k ch Hch; cbn [fold_left never_written].
  - split; [exists ch|intros _]; exact Hch.
  - destruct (exec_persist call k m c ch Hch) as [(ch1 & Hch1) Hsame].
    split.
    + apply (IH _ ch1 Hch1).
    + intros [Hnot Hrest]. apply (IH _ ch (Hsame Hnot)). exact Hrest.
Qed.

(** ** What a read can tell *)

Lemma device_read_unwritten k inode state region len :
  endpoint_registered k inode ->
  channel_id state <> 0 ->
  unwritten k (iminor inode) (channel_id state) ->
  device_read (session inode state) (Some region) len k = (inl EWOULDBLOCK, k).
Proof.
  intros Hreg Hc [Hnone|(ch & Hch & Hl)].
  - apply device_read_no_channel; assumption.
  - rewrite (device_read_channel k inode state region len ch Hc Hch).
    rewrite Hl. reflexivity.
Qed.

Lemma device_read_unregistered k inode state region len :
  find_slot (iminor inode) (slot_list_head k) = None ->
  device_read (session inode state) (Some region) len k = (inl EINVAL, k).
Proof.
  intros Hnone. unfold device_read, session. kern_unfold.
  destruct (channel_id state =? 0); [reflexivity|].
  rewrite Hnone. reflexivity.
Qed.

Lemma device_read_unselected k inode state buffer len :
  channel_id state = 0 ->
  device_read (session inode state) buffer len k = (inl EINVAL, k).
Proof.
  intros Hc. unfold device_read, session. kern_unfold.
  destruct buffer; [|reflexivity]. rewrite Hc. reflexivity.
Qed.

(** The result of a read depends on the kernel state only through whether the
    endpoint is registered and what the channel holds. *)
Lemma device_read_determined k k' inode state region len :
  (find_slot (iminor inode) (slot_list_head k') = None
   <-> find_slot (iminor inode) (slot_list_head k) = None) ->
  lookup_channel k' (iminor inode) (channel_id state)
  = lookup_channel k (iminor inode) (channel_id state)
  \/ (unwritten k' (iminor inode) (channel_id state)
      /\ unwritten k (iminor inode) (channel_id state)) ->
  fst (device_read (session inode state) (Some region) len k')
  = fst (device_read (session inode state) (Some region) len k).
Proof.
  intros Hslot Hch.
  destruct (Z.eq_dec (channel_id state) 0) as [Hc|Hc].
  { rewrite !device_read_unselected by exact Hc. reflexivity. }
  destruct (find_slot (iminor inode) (slot_list_head k)) as [slot|] eqn:Hk.
  2:{ rewrite !device_read_unregistered by tauto. reflexivity. }
  assert (Hreg : endpoint_registered k inode)
    by (unfold endpoint_registered; congruence).
  assert (Hreg' : endpoint_registered k' inode).
  { unfold endpoint_registered. intros Hnone. apply Hslot in Hnone. congruence. }
  destruct Hch as [Heq|[Hu' Hu]].
  - destruct (lookup_channel k (iminor inode) (channel_id state)) as [ch|] eqn:Hl.
    + rewrite (device_read_channel k' inode state region len ch Hc Heq).
      rewrite (device_read_channel k inode state region len ch Hc Hl).
      kern_cases; reflexivity.
    + rewrite !device_read_no_channel by assumption. reflexivity.
  - rewrite !device_read_unwritten by assumption. reflexivity.
Qed.

Lemma store_slot_find_None m m' f l :
  (forall s, minor (f s) = minor s) ->
  find_slot m' (store_slot m f l) = None <-> find_slot m' l = None.
Proof.
  intros Hf. destruct (Z.eq_dec m m') as [<-|Hne].
  - rewrite find_slot_store_slot by exact Hf.
    destruct (find_slot m l); cbn; split; congruence.
  - rewrite find_slot_store_slot_ne by assumption. reflexivity.
Qed.

Lemma device_write_find_None file buffer len k m' :
  find_slot m' (slot_list_head (snd (device_write file buffer len k))) = None
  <-> find_slot m' (slot_list_head k) = None.
Proof.
  unfold device_write. kern_unfold.
  kern_cases; cbn [snd slot_list_head]; try reflexivity;
    rewrite ?store_slot_find_None by reflexivity; reflexivity.
Qed.

(** X8. A write that fails cannot be observed by any read: whatever error it
    returned (also after it has created its channel), every read, through any
    file, with any buffer and capacity, returns in the state after the failed
    write what it returns in the state before. *)
Theorem failed_write_is_invisible
  (file : option file_t) (buffer : option (list byte)) (len : N)
  (k k' : kernel) (e : errno) :
  device_write file buffer len k = (inl e, k') ->
  forall (reader : option file_t) (rbuffer : option (list byte)) (cap : N),
    fst (device_read reader rbuffer cap k') = fst (device_read reader rbuffer cap k).
Proof.
  intros Hw reader rbuffer cap.
  assert (Hk' : k' = snd (device_write file buffer len k))
    by (rewrite Hw; reflexivity).
  destruct reader as [[rinode [rstate|]]|]; try reflexivity.
  destruct rbuffer as [region|]; [|reflexivity].
  change (Some (mk_file rinode (Some rstate))) with (session rinode rstate).
  apply device_read_determined.
  { rewrite Hk'. apply device_write_find_None. }
  destruct file as [[inode [state|]]|];
    try (left; rewrite Hk'; reflexivity).
  destruct (decide (iminor inode = iminor rinode
                    /\ channel_id state = channel_id rstate)) as [[Hm Hc]|Hne].
  - rewrite <- Hm, <- Hc.
    destruct (device_write_failure _ _ _ _ _ _ _ Hw) as [Hslots|(Hnone & g & Hnew)].
    + left. unfold lookup_channel. rewrite Hslots. reflexivity.
    + right. split; [right|left; exact Hnone].
      eexists. split; [exact Hnew|reflexivity].
  - left. rewrite Hk'. apply device_write_frame.
    intros f st [= <-] [= <-]. cbn.
    destruct (Z.eq_dec (iminor inode) (iminor rinode)); [right|left; assumption].
    intros Hc. apply Hne. split; assumption.
Qed.

(** A read that returns a byte count, read backwards. *)
Lemma device_read_inv_success file buffer len k n ubuf' k' :
  device_read file buffer len k = (inr (n, ubuf'), k') ->
  exists inode state ubuf ch,
    file = session inode state
    /\ buffer = Some ubuf
    /\ channel_id state <> 0
    /\ lookup_channel k (iminor inode) (channel_id state) = Some ch
    /\ n = message_length ch
    /\ (1 <= n <= len)%N
    /\ (n <= N.of_nat (length ubuf))%N
    /\ ubuf' = stored_message ch ++ drop (N.to_nat n) ubuf
    /\ k' = k.
Proof.
  destruct file as [[inode [state|]]|]; [|discriminate..].
  destruct buffer as [ubuf|]; [|discriminate].
  unfold device_read, session, lookup_channel, channel_of, copy_to_user.
  kern_unfold. kern_cases; intros [= <- <- <-].
  repeat match goal with
         | H : (_ =? _)%N = false |- _ => apply N.eqb_neq in H
         | H : (_ <? _)%N = false |- _ => apply N.ltb_ge in H
         | H : (_ <=? _)%N = true |- _ => apply N.leb_le in H
         | H : (_ =? _) = false |- _ => apply Z.eqb_neq in H
         end.
  exists inode, state, ubuf, c. rewrite Heqo.
  repeat (split; [first [reflexivity|eassumption|lia]|]). reflexivity.
Qed.

(** X9. A read that succeeds returns the stored length of its channel, which
    is at least 1 and at most the capacity it was given (so it never returns
    0); the caller's buffer then starts with the stored message and is
    unchanged after it, and the kernel state is unchanged. *)
Theorem successful_read_returns_stored_message
  (file : option file_t) (buffer : option (list byte)) (len n : N)
  (ubuf' : list byte) (k k' : kernel) :
  device_read file buffer len k = (inr (n, ubuf'), k') ->
  exists inode state ubuf ch,
    file = session inode state
    /\ buffer = Some ubuf
    /\ lookup_channel k (iminor inode) (channel_id state) = Some ch
    /\ n = message_length ch
    /\ (1 <= n <= len)%N
    /\ (n <= N.of_nat (length ubuf))%N
    /\ ubuf' = stored_message ch ++ drop (N.to_nat n) ubuf
    /\ (message_fits ch ->
        take (N.to_nat n) ubuf' = stored_message ch
        /\ drop (N.to_nat n) ubuf' = drop (N.to_nat n) ubuf
        /\ length ubuf' = length ubuf)
    /\ k' = k.
Proof.
  intros Hr.
  destruct (device_read_inv_success _ _ _ _ _ _ _ Hr)
    as (inode & state & ubuf & ch & -> & -> & _ & Hch & -> & Hn & Hfit & -> & ->).
  exists inode, state, ubuf, ch.
  repeat (split; [first [reflexivity|assumption]|]).
  split; [|reflexivity].
  intros Hmf.
  assert (Hlen : length (stored_message ch) = N.to_nat (message_length ch)).
  { unfold stored_message, message_fits in *. rewrite length_take. lia. }
  split; [|split].
  - rewrite take_app_length'; [reflexivity|symmetry; exact Hlen].
  - rewrite drop_app_length'; [reflexivity|symmetry; exact Hlen].
  - rewrite length_app, length_drop, Hlen. lia.
Qed.

(** ** What the error codes mean *)

(** X10. Each error of a write has its cause, and the checks before it have
    passed: [EINVAL] only for a NULL file, state or buffer, an unselected
    channel or an endpoint that is not registered; [EMSGSIZE] only for a
    length of 0 or above 128; [ENOMEM] only when [kmalloc] returned NULL for
    a block this write asked for (the channel record, when the channel does
    not exist yet, or the kernel buffer); [EFAULT] only when fewer than
    [len] bytes are accessible behind the buffer; never [EWOULDBLOCK] or
    [ENOSPC]. *)
Theorem write_errors_have_causes
  (file : option file_t) (buffer : option (list byte)) (len : N)
  (k k' : kernel) (e : errno) :
  device_write file buffer len k = (inl e, k') ->
  match e with
  | EINVAL =>
      (forall inode state, file <> session inode state)
      \/ buffer = None
      \/ exists inode state,
          file = session inode state
          /\ (channel_id state = 0
              \/ ((1 <= len <= 128)%N /\ ~ endpoint_registered k inode))
  | EMSGSIZE =>
      (exists inode state, file = session inode state /\ channel_id state <> 0)
      /\ buffer <> None
      /\ (len = 0%N \/ (128 < len)%N)
  | ENOMEM =>
      exists inode state,
        file = session inode state
        /\ channel_id state <> 0
        /\ buffer <> None
        /\ (1 <= len <= 128)%N
        /\ endpoint_registered k inode
        /\ (kmalloc_oracle k (kmalloc_calls k) = None
            \/ (lookup_channel k (iminor inode) (channel_id state) = None
                /\ kmalloc_oracle k (kmalloc_calls k) <> None
                /\ kmalloc_oracle k (S (kmalloc_calls k)) = None))
  | EFAULT =>
      exists inode state ubuf,
        file = session inode state
        /\ buffer = Some ubuf
        /\ channel_id state <> 0
        /\ (1 <= len <= 128)%N
        /\ endpoint_registered k inode
        /\ (N.of_nat (length ubuf) < len)%N
  | EWOULDBLOCK | ENOSPC => False
  end.
Proof.
  destruct file as [[inode [state|]]|].
  2,3: intros H; cbn in H; injection H as <- <-; left; intros inode' state';
    discriminate.
  destruct buffer as [ubuf|];
    [|intros H; cbn in H; injection H as <- <-; right; left; reflexivity].
  intros H. pattern e. match goal with |- ?Q e => set (Cause := Q) end. revert H.
  unfold device_write, session, copy_from_user. kern_unfold.
  kern_cases; intros [= <- <-]; subst Cause; cbn beta iota;
    repeat match goal with
           | H : (_ =? _)%N = true |- _ => apply N.eqb_eq in H
           | H : (_ <=? _)%N = false |- _ => apply N.leb_gt in H
           | H : (_ =? _) = true |- _ => apply Z.eqb_eq in H
           | H : (_ =? _) = false |- _ => apply Z.eqb_neq in H
           | H : _ || _ = false |- _ => apply length_check_passed in H
           | H : _ || _ = true |- _ =>
               apply orb_true_iff in H; rewrite N.eqb_eq, N.ltb_lt in H
           end.
  all: unfold MAX_MESSAGE_LENGTH in *.
  all: try match goal with
         | Hs : find_slot (iminor ?i) (slot_list_head ?k0) = Some _ |- _ =>
             assert (Hreg : endpoint_registered k0 i)
               by (unfold endpoint_registered; congruence)
         end.
  all: try match goal with
         | Hs : find_slot (iminor ?i) (slot_list_head ?k0) = Some ?s,
           Hc : find_channel (channel_id ?st) (channels ?s) = None |- _ =>
             assert (Hnone : lookup_channel k0 (iminor i) (channel_id st) = None)
               by (unfold lookup_channel, channel_of; rewrite Hs; exact Hc)
         end.
  all: first
    [ (* EMSGSIZE *)
      split; [exists inode, state; split; [reflexivity|assumption]|];
      split; [discriminate|assumption]
    | (* EFAULT *)
      exists inode, state, ubuf;
      repeat (split; [first [reflexivity|assumption]|]); assumption
    | (* ENOMEM *)
      exists inode, state;
      split; [reflexivity|]; split; [assumption|]; split; [discriminate|];
      split; [assumption|]; split; [assumption|];
      first [ left; first [assumption|reflexivity]
            | right; split; [assumption|];
              split; [congruence|first [assumption|reflexivity]] ]
    | (* EINVAL *)
      right; right; exists inode, state; split; [reflexivity|];
      first [ left; assumption
            | right; split; [assumption|];
              unfold endpoint_registered; intros H; apply H; assumption ] ].
Qed.

(** X11. A read never changes the kernel state, whether it succeeds or
    fails, and each of its errors has its cause: [EINVAL] only for a NULL
    file, state or buffer, an unselected
    channel or an unregistered endpoint; [EWOULDBLOCK] only when the channel
    is absent or empty; [ENOSPC] only when the stored message is longer than
    the capacity; [EFAULT] only when the message fits the capacity but not
    the accessible buffer; never [ENOMEM] or [EMSGSIZE]. *)
Theorem read_errors_have_causes
  (file : option file_t) (buffer : option (list byte)) (len : N)
  (k k' : kernel) (r : errno + N * list byte) :
  device_read file buffer len k = (r, k') ->
  k' = k
  /\ forall e : errno,
      r = inl e ->
      match e with
      | EINVAL =>
          (forall inode state, file <> session inode state)
          \/ buffer = None
          \/ exists inode state,
              file = session inode state
              /\ (channel_id state = 0 \/ ~ endpoint_registered k inode)
      | EWOULDBLOCK =>
          exists inode state,
            file = session inode state
            /\ unwritten k (iminor inode) (channel_id state)
      | ENOSPC =>
          exists inode state ch,
            file = session inode state
            /\ lookup_channel k (iminor inode) (channel_id state) = Some ch
            /\ (len < message_length ch)%N
      | EFAULT =>
          exists inode state ch ubuf,
            file = session inode state
            /\ buffer = Some ubuf
            /\ lookup_channel k (iminor inode) (channel_id state) = Some ch
            /\ (message_length ch <= len)%N
            /\ (N.of_nat (length ubuf) < message_length ch)%N
      | ENOMEM | EMSGSIZE => False
      end.
Proof.
  intros Hrun. split.
  { revert Hrun. unfold device_read. kern_unfold.
    kern_cases; intros [= _ <-]; reflexivity. }
  intros e ->. refine (proj2 (_ : k' = k /\ _)). revert Hrun.
  destruct file as [[inode [state|]]|].
  2,3: intros H; cbn in H; injection H as <- <-; split; [reflexivity|]; left;
    intros inode' state'; discriminate.
  destruct buffer as [ubuf|];
    [|intros H; cbn in H; injection H as <- <-; split; [reflexivity|]; right; left;
      reflexivity].
  intros H. pattern e. match goal with |- ?Q e => set (Cause := Q) end. revert H.
  unfold device_read, session, copy_to_user.
  kern_unfold.
  kern_cases; intros [= <- <-]; subst Cause; cbn beta iota;
    unfold endpoint_registered, unwritten, lookup_channel, channel_of;
    (split; [reflexivity|]);
    repeat match goal with
           | H : (_ =? _)%N = true |- _ => apply N.eqb_eq in H
           | H : (_ =? _)%N = false |- _ => apply N.eqb_neq in H
           | H : (_ <? _)%N = true |- _ => apply N.ltb_lt in H
           | H : (_ <? _)%N = false |- _ => apply N.ltb_ge in H
           | H : (_ <=? _)%N = false |- _ => apply N.leb_gt in H
           | H : (_ =? _) = true |- _ => apply Z.eqb_eq in H
           end.
  all: first
    [ right; right; exists inode, state; split; [reflexivity|];
      first [left; assumption|right; intros H; apply H; assumption]
    | exists inode, state, c, ubuf; split; [reflexivity|]; split; [reflexivity|];
      cbn [iminor];
      match goal with H : find_slot _ _ = _ |- _ => rewrite H end;
      repeat split; assumption
    | exists inode, state, c; split; [reflexivity|]; cbn [iminor];
      match goal with H : find_slot _ _ = _ |- _ => rewrite H end;
      split; assumption
    | exists inode, state; split; [reflexivity|]; cbn [iminor];
      match goal with H : find_slot _ _ = _ |- _ => rewrite H end;
      first [left; assumption|right; eexists; split; eassumption] ].
Qed.

(** ** Opening, configuring and closing a session *)

(** X12. [device_open] fails only with [ENOMEM] and only when [kmalloc]
    returned NULL for a block this open asked for (its first allocation, or,
    when the endpoint was not registered yet, its second one after the first
    succeeded), and a failed open changes no channel; with memory available
    it succeeds, leaves a fresh session (channel 0, censorship off) and the
    endpoint registered. Opening a registered endpoint never changes the
    slot list; a first open that succeeds puts one empty slot at its head;
    an open whose second allocation fails returns [ENOMEM] but leaves the
    new endpoint registered; and an open whose first allocation fails
    returns [ENOMEM] with the slot list as it was. *)
Theorem open_registers_the_endpoint (inode : inode_t) (file : file_t) (k : kernel) :
  (memory_available k ->
   exists k', device_open inode file k
              = (inr (mk_file (file_inode file) (Some fresh_state)), k')
              /\ endpoint_registered k' inode)
  /\ (forall e k', device_open inode file k = (inl e, k') ->
                   e = ENOMEM
                   /\ (kmalloc_oracle k (kmalloc_calls k) = None
                       \/ (~ endpoint_registered k inode
                           /\ kmalloc_oracle k (kmalloc_calls k) <> None
                           /\ kmalloc_oracle k (S (kmalloc_calls k)) = None))
                   /\ forall m c, lookup_channel k' m c = lookup_channel k m c)
  /\ (endpoint_registered k inode ->
      slot_list_head (snd (device_open inode file k)) = slot_list_head k)
  /\ (~ endpoint_registered k inode ->
      forall f k', device_open inode file k = (inr f, k') ->
                   slot_list_head k' = mk_slot (iminor inode) [] :: slot_list_head k)
  /\ (~ endpoint_registered k inode ->
      kmalloc_oracle k (kmalloc_calls k) <> None ->
      kmalloc_oracle k (S (kmalloc_calls k)) = None ->
      exists k', device_open inode file k = (inl ENOMEM, k')
                 /\ endpoint_registered k' inode)
  /\ (kmalloc_oracle k (kmalloc_calls k) = None ->
      exists k', device_open inode file k = (inl ENOMEM, k')
                 /\ slot_list_head k' = slot_list_head k).
Proof.
  split; [|split; [|split; [|split; [|split]]]].
  - intros Hmem. unfold device_open, endpoint_registered. kern_unfold.
    destruct (find_slot (iminor inode) (slot_list_head k)) as [slot|] eqn:Hslot;
      kern_simpl.
    + destruct (kmalloc_oracle k (kmalloc_calls k)) eqn:Hg;
        [|exfalso; exact (Hmem _ Hg)].
      kern_simpl. eexists. split; [reflexivity|]. kern_simpl. congruence.
    + destruct (kmalloc_oracle k (kmalloc_calls k)) eqn:Hg;
        [|exfalso; exact (Hmem _ Hg)].
      kern_simpl.
      destruct (kmalloc_oracle k (S (kmalloc_calls k))) eqn:Hg';
        [|exfalso; exact (Hmem _ Hg')].
      kern_simpl. eexists. split; [reflexivity|]. kern_simpl.
      cbn. rewrite Z.eqb_refl. discriminate.
  - intros e k' Hopen.
    assert (Hk' : k' = snd (device_open inode file k)) by (rewrite Hopen; reflexivity).
    split; [|split].
    + revert Hopen. unfold device_open. kern_unfold.
      kern_cases; intros [= <- _]; reflexivity.
    + revert Hopen. unfold device_open, endpoint_registered. kern_unfold.
      kern_cases; intros [= _ _];
        first [ left; reflexivity
              | right; split; [intros H; apply H; reflexivity|];
                split; [discriminate|reflexivity] ].
    + intros m c. rewrite Hk'. apply device_open_lookup.
  - unfold endpoint_registered, device_open. kern_unfold. intros Hreg.
    destruct (find_slot (iminor inode) (slot_list_head k)); [|congruence].
    kern_cases; reflexivity.
  - unfold endpoint_registered, device_open. kern_unfold. intros Hreg f k'.
    destruct (find_slot (iminor inode) (slot_list_head k)) eqn:Hslot;
      [exfalso; apply Hreg; discriminate|].
    kern_cases; intros [= _ <-]; reflexivity.
  - unfold endpoint_registered, device_open. kern_unfold. intros Hreg H1 H2.
    destruct (find_slot (iminor inode) (slot_list_head k)) eqn:Hslot;
      [exfalso; apply Hreg; discriminate|].
    kern_simpl.
    destruct (kmalloc_oracle k (kmalloc_calls k)); [|congruence].
    kern_simpl. rewrite H2. kern_simpl.
    eexists. split; [reflexivity|]. cbn. rewrite Z.eqb_refl. discriminate.
  - unfold device_open. kern_unfold. intros H1.
    destruct (find_slot (iminor inode) (slot_list_head k)); kern_simpl;
      rewrite H1; kern_simpl; eexists; split; reflexivity.
Qed.

Lemma to_uint_small (x : Z) : 0 <= x < 2 ^ 32 -> to_uint x = x.
Proof. intros H. unfold to_uint. apply Z.mod_small. exact H. Qed.

(** X13. [MSG_SLOT_CHANNEL] keeps only the low 32 bits of its argument: any
    nonzero argument is accepted and selects channel [ioctl_param mod 2^32],
    leaving the censorship flag and the kernel state as they were. For an
    argument below [2^32] that is the argument itself; for a nonzero multiple
    of [2^32] (an [unsigned long] has 64 bits) the ioctl succeeds but the
    session is left unselected, so its reads and writes fail with [EINVAL]. *)
Theorem ioctl_channel_keeps_low_bits
  (inode : inode_t) (state : fd_state_t) (ioctl_param : Z) (k : kernel) :
  ioctl_param <> 0 ->
  device_ioctl (session inode state) MSG_SLOT_CHANNEL ioctl_param k
  = (inr (mk_file inode
            (Some (mk_fd_state (ioctl_param mod 2 ^ 32) (censorship_enabled state)))), k)
  /\ (0 < ioctl_param < 2 ^ 32 ->
      device_ioctl (session inode state) MSG_SLOT_CHANNEL ioctl_param k
      = (inr (mk_file inode
                (Some (mk_fd_state ioctl_param (censorship_enabled state)))), k))
  /\ (ioctl_param mod 2 ^ 32 = 0 ->
      forall f k1, device_ioctl (session inode state) MSG_SLOT_CHANNEL ioctl_param k
                   = (inr f, k1) ->
      forall buffer len k2,
        device_write (Some f) buffer len k2 = (inl EINVAL, k2)
        /\ device_read (Some f) buffer len k2 = (inl EINVAL, k2)).
Proof.
  intros Hnz.
  assert (Hrun : device_ioctl (session inode state) MSG_SLOT_CHANNEL ioctl_param k
                 = (inr (mk_file inode
                           (Some (mk_fd_state (ioctl_param mod 2 ^ 32)
                                    (censorship_enabled state)))), k)).
  { unfold device_ioctl, session. kern_unfold.
    rewrite Z.eqb_refl. apply Z.eqb_neq in Hnz. rewrite Hnz. reflexivity. }
  split; [exact Hrun|split].
  - intros Hsmall. rewrite Hrun.
    change (ioctl_param mod 2 ^ 32) with (to_uint ioctl_param).
    rewrite to_uint_small by lia. reflexivity.
  - intros Hmod f k1. rewrite Hrun. intros [= <- <-]. intros buffer len k2.
    rewrite Hmod. unfold device_write, device_read. kern_unfold.
    destruct buffer; split; reflexivity.
Qed.

Lemma ioctl_commands_differ : (MSG_SLOT_SET_CEN =? MSG_SLOT_CHANNEL) = false.
Proof. reflexivity. Qed.

(** X14. The two settings of a session are independent: selecting a channel
    [c] (below [2^32], nonzero) and setting the censorship flag to [v] (0 or
    1), in either order, leave the session bound to [c] with flag [v],
    whatever it was before, and leave the kernel state unchanged; a
    censorship value other than 0 and 1, and any other command, are refused
    with [EINVAL]. *)
Theorem ioctl_settings_are_independent
  (inode : inode_t) (state : fd_state_t) (c v : Z) (k : kernel) :
  0 < c < 2 ^ 32 ->
  v = 0 \/ v = 1 ->
  (f <- device_ioctl (session inode state) MSG_SLOT_CHANNEL c ;;
   device_ioctl (Some f) MSG_SLOT_SET_CEN v) k
  = (inr (mk_file inode (Some (mk_fd_state c v))), k)
  /\ (f <- device_ioctl (session inode state) MSG_SLOT_SET_CEN v ;;
      device_ioctl (Some f) MSG_SLOT_CHANNEL c) k
     = (inr (mk_file inode (Some (mk_fd_state c v))), k)
  /\ (forall v', v' <> 0 -> v' <> 1 ->
                 device_ioctl (session inode state) MSG_SLOT_SET_CEN v' k
                 = (inl EINVAL, k))
  /\ (forall cmd param, cmd <> MSG_SLOT_CHANNEL -> cmd <> MSG_SLOT_SET_CEN ->
                        device_ioctl (session inode state) cmd param k
                        = (inl EINVAL, k)).
Proof.
  intros Hc Hv.
  assert (Hcz : (c =? 0) = false) by (apply Z.eqb_neq; lia).
  assert (Hv01 : negb (v =? 0) && negb (v =? 1) = false)
    by (destruct Hv as [-> | ->]; reflexivity).
  assert (Hvi : to_int v = v) by (destruct Hv as [-> | ->]; reflexivity).
  assert (Hcu : to_uint c = c) by (apply to_uint_small; lia).
  repeat split.
  - unfold device_ioctl, session. kern_unfold.
    rewrite Z.eqb_refl, Hcz. kern_simpl.
    rewrite ioctl_commands_differ, Z.eqb_refl, Hv01. kern_simpl.
    rewrite Hvi, Hcu. reflexivity.
  - unfold device_ioctl, session. kern_unfold.
    rewrite ioctl_commands_differ, Z.eqb_refl, Hv01. kern_simpl.
    rewrite Z.eqb_refl, Hcz. kern_simpl.
    rewrite Hvi, Hcu. reflexivity.
  - intros v' H0 H1. unfold device_ioctl, session. kern_unfold.
    rewrite ioctl_commands_differ, Z.eqb_refl.
    apply Z.eqb_neq in H0, H1. rewrite H0, H1. reflexivity.
  - intros cmd param H0 H1. unfold device_ioctl, session. kern_unfold.
    apply Z.eqb_neq in H0, H1. rewrite H0, H1. reflexivity.
Qed.

(** X15. [device_release] always returns 0 and leaves the kernel state, hence
    every stored message, as it was; on the released file every ioctl, write
    and read fails with [EINVAL] without changing anything, and releasing it
    again changes nothing. *)
Theorem released_file_is_dead (inode : inode_t) (file : option file_t) (k : kernel) :
  exists file',
    device_release inode file k = (inr file', k)
    /\ (forall f, file' = Some f -> private_data f = None)
    /\ device_release inode file' k = (inr file', k)
    /\ forall (k1 : kernel) (cmd param : Z) (buffer : option (list byte)) (len : N),
        device_ioctl file' cmd param k1 = (inl EINVAL, k1)
        /\ device_write file' buffer len k1 = (inl EINVAL, k1)
        /\ device_read file' buffer len k1 = (inl EINVAL, k1).
Proof.
  destruct file as [[finode [state|]]|]; cbn [device_release private_data file_inode].
  - exists (Some (mk_file finode None)). repeat split.
    intros f [= <-]. reflexivity.
  - exists (Some (mk_file finode None)). repeat split.
    intros f [= <-]. reflexivity.
  - exists None. repeat split. discriminate.
Qed.

(** ** Messages outlive sessions *)

Lemma never_written_lookup cs k m c ch :
  lookup_channel k m c = Some ch ->
  never_written cs k m c ->
  lookup_channel (exec_all cs k) m c = Some ch.
Proof.
  unfold exec_all. revert k.
  induction cs as [|call cs IH]; intros k Hch Hnw; cbn; [exact Hch|].
  destruct Hnw as [Hnot Hrest].
  apply IH; [|exact Hrest].
  apply (proj2 (exec_persist call k m c ch Hch) Hnot).
Qed.

Lemma device_ioctl_channel inode state c k :
  0 < c < 2 ^ 32 ->
  device_ioctl (session inode state) MSG_SLOT_CHANNEL c k
  = (inr (mk_file inode (Some (mk_fd_state c (censorship_enabled state)))), k).
Proof.
  intros Hc. unfold device_ioctl, session. kern_unfold.
  rewrite Z.eqb_refl.
  replace (c =? 0) with false by (symmetry; apply Z.eqb_neq; lia).
  kern_simpl. rewrite to_uint_small by lia. reflexivity.
Qed.

Lemma device_open_ok inode k :
  memory_available k ->
  exists k', device_open inode (mk_file inode None) k
             = (inr (mk_file inode (Some fresh_state)), k')
             /\ endpoint_registered k' inode
             /\ kmalloc_oracle k' = kmalloc_oracle k
             /\ forall m c, lookup_channel k' m c = lookup_channel k m c.
Proof.
  intros Hmem.
  destruct (device_open inode (mk_file inode None) k) as [[e|f] k'] eqn:Hopen.
  - exfalso. revert Hopen. unfold device_open. kern_unfold.
    kern_cases; intros [= _ _];
      match goal with H : kmalloc_oracle _ _ = None |- _ => exact (Hmem _ H) end.
  - destruct (device_open_fresh _ _ _ _ _ Hopen) as (Hpd & Hino & Hreg).
    exists k'. destruct f as [fi pd]. cbn in Hpd, Hino. subst fi pd.
    repeat split; [exact Hreg| |].
    + replace k' with (exec (Open inode (mk_file inode None)) k)
        by (cbn [exec]; rewrite Hopen; reflexivity).
      apply exec_oracle.
    + intros m c.
      replace k' with (snd (device_open inode (mk_file inode None) k))
        by (rewrite Hopen; reflexivity).
      apply device_open_lookup.
Qed.

(** X16. A message outlives the session that wrote it. With memory
    available: open the device node, select channel [c], write [m] (no
    censorship: a new session has the flag off) and release the file; then,
    after any calls none of which is a successful write to that channel, a
    new session on the same node that selects [c] reads back exactly [m]. *)
Theorem message_outlives_its_session
  (k : kernel) (inode : inode_t) (c : Z) (m region : list byte) (cap : N) :
  memory_available k ->
  0 < c < 2 ^ 32 ->
  (1 <= N.of_nat (length m) <= MAX_MESSAGE_LENGTH)%N ->
  (N.of_nat (length m) <= cap)%N ->
  (cap <= N.of_nat (length region))%N ->
  exists k1,
    (f <- device_open inode (mk_file inode None) ;;
     f <- device_ioctl (Some f) MSG_SLOT_CHANNEL c ;;
     device_write (Some f) (Some m) (N.of_nat (length m)) ;;
     device_release inode (Some f)) k
    = (inr (Some (mk_file inode None)), k1)
    /\ forall cs : list call,
        never_written cs k1 (iminor inode) c ->
        exists k2,
          (f <- device_open inode (mk_file inode None) ;;
           f <- device_ioctl (Some f) MSG_SLOT_CHANNEL c ;;
           device_read (Some f) (Some region) cap) (exec_all cs k1)
          = (inr (N.of_nat (length m), m ++ drop (length m) region), k2).
Proof.
  intros Hmem Hc Hlen Hcap Hregion.
  destruct (device_open_ok inode k Hmem) as (k0 & Hopen & Hreg0 & Horacle0 & _).
  assert (Hmem0 : memory_available k0)
    by (eapply memory_available_oracle; eassumption).
  destruct (device_write_stores k0 inode (mk_fd_state c 0) m (N.of_nat (length m)))
    as (k1 & ch & Hwrite & Hch & Hl & Hst & Horacle1); try assumption;
    [cbn; lia|lia|].
  exists k1. split.
  - unfold bind at 1. rewrite Hopen.
    unfold bind at 1.
    change (Some (mk_file inode (Some fresh_state))) with (session inode fresh_state).
    rewrite (device_ioctl_channel inode fresh_state c k0 Hc).
    unfold bind at 1.
    change (Some (mk_file inode (Some (mk_fd_state c (censorship_enabled fresh_state)))))
      with (session inode (mk_fd_state c 0)).
    rewrite Hwrite. reflexivity.
  - intros cs Hnw.
    assert (Hreg1 : endpoint_registered k1 inode)
      by (eapply lookup_channel_registered; exact Hch).
    assert (Hmem1 : memory_available k1)
      by (eapply memory_available_oracle; eassumption).
    destruct (exec_all_session_assumptions cs k1 inode Hreg1 Hmem1) as [_ Hmem2].
    pose proof (never_written_lookup cs k1 _ _ ch Hch Hnw) as Hch2.
    destruct (device_open_ok inode (exec_all cs k1) Hmem2)
      as (k2 & Hopen2 & _ & _ & Hsame).
    exists k2.
    unfold bind at 1. rewrite Hopen2.
    unfold bind at 1.
    change (Some (mk_file inode (Some fresh_state))) with (session inode fresh_state).
    rewrite (device_ioctl_channel inode fresh_state c k2 Hc).
    change (Some (mk_file inode (Some (mk_fd_state c (censorship_enabled fresh_state)))))
      with (session inode (mk_fd_state c 0)).
    rewrite <- Hsame in Hch2.
    rewrite (device_read_message k2 inode (mk_fd_state c 0) region cap ch);
      [|cbn; lia|exact Hch2|lia|lia|lia].
    rewrite Hst, Hl. unfold apply_censorship. cbn [censorship_enabled].
    cbn [Z.eqb]. rewrite Nat2N.id, firstn_all. reflexivity.
Qed.

(** * The user programs *)

(** ** System calls *)

Lemma syscall_ok {A : Type} (c : kern A) k a k' :
  c k = (inr a, k') -> syscall c k = (inr (Some a), k').
Proof. unfold syscall. intros ->. reflexivity. Qed.

Lemma syscall_fail {A : Type} (c : kern A) k e k' :
  c k = (inl e, k') -> syscall c k = (inr None, k').
Proof. unfold syscall. intros ->. reflexivity. Qed.

Lemma syscall_state {A : Type} (c : kern A) k r k' :
  syscall c k = (inr r, k') -> k' = snd (c k).
Proof. unfold syscall. destruct (c k) as [[e|a] k0]; intros [= _ <-]; reflexivity. Qed.

Lemma to_uint_range (x : Z) : 0 <= to_uint x < 2 ^ 32.
Proof. unfold to_uint. apply Z.mod_pos_bound. reflexivity. Qed.

Lemma device_ioctl_set_cen inode state v k :
  v = 0 \/ v = 1 ->
  device_ioctl (session inode state) MSG_SLOT_SET_CEN v k
  = (inr (mk_file inode (Some (mk_fd_state (channel_id state) v))), k).
Proof.
  intros Hv. unfold device_ioctl, session. kern_unfold.
  rewrite ioctl_commands_differ, Z.eqb_refl.
  destruct Hv as [-> | ->]; reflexivity.
Qed.

(** An ioctl never changes the kernel state; when it succeeds on a session it
    has set one of the two fields. *)
Lemma device_ioctl_inv inode state cmd param k f k' :
  device_ioctl (session inode state) cmd param k = (inr f, k') ->
  k' = k
  /\ ((cmd = MSG_SLOT_CHANNEL /\ param <> 0
       /\ f = mk_file inode (Some (mk_fd_state (to_uint param) (censorship_enabled state))))
      \/ (cmd = MSG_SLOT_SET_CEN /\ (param = 0 \/ param = 1)
          /\ f = mk_file inode (Some (mk_fd_state (channel_id state) (to_int param))))).
Proof.
  unfold device_ioctl, session. kern_unfold.
  kern_cases; intros [= <- <-]; (split; [reflexivity|]);
    repeat match goal with
           | H : (_ =? _) = true |- _ => apply Z.eqb_eq in H
           | H : (_ =? _) = false |- _ => apply Z.eqb_neq in H
           | H : _ && _ = false |- _ =>
               apply andb_false_iff in H;
               rewrite !negb_false_iff, !Z.eqb_eq in H
           end.
  - left. repeat split; assumption.
  - right. repeat split; assumption.
Qed.

Lemma strlen_c_string (s : list byte) :
  ~ In "000"%byte s -> strlen (c_string s) = N.of_nat (length s).
Proof.
  unfold c_string. induction s as [|b s IH]; cbn [app strlen length]; intros Hnul.
  - reflexivity.
  - destruct (Byte.eqb b "000") eqn:E.
    + exfalso. apply Hnul. left. apply byte_dec_bl, E.
    + rewrite IH by (intros H; apply Hnul; right; exact H). lia.
Qed.

Lemma take_c_string (s : list byte) : take (length s) (c_string s) = s.
Proof. unfold c_string. apply take_app_length. Qed.

Lemma bind_inr {A B : Type} (c : kern A) (f : A -> kern B) k a k' :
  c k = (inr a, k') -> bind c f k = f a k'.
Proof. unfold bind. intros ->. reflexivity. Qed.

Lemma sys_close_run fd k : sys_close fd k = (inr tt, k).
Proof. unfold sys_close. destruct fd as [inode [state|]]; reflexivity. Qed.

Lemma sys_open_ok p path inode k :
  device_node p path = Some inode ->
  memory_available k ->
  exists k', sys_open p path k = (inr (Some (mk_file inode (Some fresh_state))), k')
             /\ endpoint_registered k' inode
             /\ kmalloc_oracle k' = kmalloc_oracle k
             /\ forall m c, lookup_channel k' m c = lookup_channel k m c.
Proof.
  intros Hnode Hmem.
  destruct (device_open_ok inode k Hmem) as (k' & Hopen & Hrest).
  exists k'. split; [|exact Hrest].
  unfold sys_open. rewrite Hnode. apply syscall_ok, Hopen.
Qed.

(** ** message_sender *)

Lemma message_sender_ok p a0 device arg2 arg3 message inode k :
  device_node p device = Some inode ->
  to_uint (atoi p arg2) <> 0 ->
  to_uint (atoi p arg3) = 0 \/ to_uint (atoi p arg3) = 1 ->
  ~ In "000"%byte message ->
  (1 <= N.of_nat (length message) <= MAX_MESSAGE_LENGTH)%N ->
  memory_available k ->
  exists k' ch,
    message_sender p [a0; device; arg2; arg3; message] k = (inr 0, k')
    /\ lookup_channel k' (iminor inode) (to_uint (atoi p arg2)) = Some ch
    /\ message_length ch = N.of_nat (length message)
    /\ stored_message ch
       = (if to_uint (atoi p arg3) =? 0 then message else censor_spec message)
    /\ kmalloc_oracle k' = kmalloc_oracle k
    /\ forall m c, (iminor inode, to_uint (atoi p arg2)) <> (m, c) ->
                   lookup_channel k' m c = lookup_channel k m c.
Proof.
  intros Hnode Hc Hv Hnul Hlen Hmem.
  set (c := to_uint (atoi p arg2)) in *.
  set (v := to_uint (atoi p arg3)) in *.
  pose proof (to_uint_range (atoi p arg2)) as Hcr. fold c in Hcr.
  destruct (sys_open_ok p device inode k Hnode Hmem)
    as (k0 & Hopen & Hreg0 & Horacle0 & Hsame0).
  assert (Hmem0 : memory_available k0)
    by (eapply memory_available_oracle; eassumption).
  destruct (device_write_stores k0 inode (mk_fd_state c v) (c_string message)
              (N.of_nat (length message)))
    as (k1 & ch & Hwrite & Hch & Hl & Hst & Horacle1); try assumption.
  { unfold c_string. rewrite length_app. cbn. lia. }
  exists k1, ch.
  split; [|split; [exact Hch|split; [exact Hl|split; [|split]]]].
  - unfold message_sender. fold c v.
    replace (c =? 0) with false by (symmetry; apply Z.eqb_neq; exact Hc).
    replace (negb (v =? 0) && negb (v =? 1)) with false
      by (destruct Hv as [-> | ->]; reflexivity).
    cbn [orb].
    rewrite (bind_inr _ _ _ _ _ Hopen).
    unfold sys_ioctl.
    rewrite (bind_inr _ _ k0 (Some (mk_file inode (Some (mk_fd_state 0 v)))) k0)
      by (apply syscall_ok, (device_ioctl_set_cen inode fresh_state v k0 Hv)).
    rewrite (bind_inr _ _ k0 (Some (mk_file inode (Some (mk_fd_state c v)))) k0)
      by (apply syscall_ok,
            (device_ioctl_channel inode (mk_fd_state 0 v) c k0); lia).
    unfold sys_write. rewrite strlen_c_string by exact Hnul.
    rewrite (bind_inr _ _ k0 (Some (N.of_nat (length message))) k1)
      by (apply syscall_ok, Hwrite).
    unfold bind. rewrite sys_close_run. reflexivity.
  - rewrite Hst. unfold apply_censorship. cbn [censorship_enabled].
    rewrite Nat2N.id, take_c_string.
    destruct (v =? 0); [reflexivity|apply censor_loop_spec].
  - congruence.
  - intros m c' Hne. rewrite <- Hsame0.
    replace k1 with (snd (device_write (session inode (mk_fd_state c v))
                            (Some (c_string message))
                            (N.of_nat (length message)) k0))
      by (rewrite Hwrite; reflexivity).
    apply device_write_frame. intros f st [= <-] [= <-]. cbn.
    destruct (Z.eq_dec (iminor inode) m); [right|left]; congruence.
Qed.

(** ** message_reader *)

Lemma message_reader_run p buffer a0 device arg2 inode ch written k :
  device_node p device = Some inode ->
  to_uint (atoi p arg2) <> 0 ->
  memory_available k ->
  lookup_channel k (iminor inode) (to_uint (atoi p arg2)) = Some ch ->
  (0 < message_length ch <= MAX_MESSAGE_LENGTH)%N ->
  message_fits ch ->
  length buffer = N.to_nat MAX_MESSAGE_LENGTH ->
  stdout_write p (stored_message ch) = Some written ->
  exists k',
    message_reader p buffer [a0; device; arg2] k
    = (inr (0, take written (stored_message ch)), k')
    /\ kmalloc_oracle k' = kmalloc_oracle k
    /\ forall m c, lookup_channel k' m c = lookup_channel k m c.
Proof.
  intros Hnode Hc Hmem Hch Hlen Hfits Hbuf Hout.
  set (c := to_uint (atoi p arg2)) in *.
  pose proof (to_uint_range (atoi p arg2)) as Hcr. fold c in Hcr.
  destruct (sys_open_ok p device inode k Hnode Hmem)
    as (k0 & Hopen & Hreg0 & Horacle0 & Hsame0).
  exists k0. split; [|split; assumption].
  assert (Hstored : length (stored_message ch) = N.to_nat (message_length ch)).
  { unfold stored_message, message_fits in *. rewrite length_take. lia. }
  unfold message_reader. fold c.
  replace (c =? 0) with false by (symmetry; apply Z.eqb_neq; exact Hc).
  rewrite (bind_inr _ _ _ _ _ Hopen).
  unfold sys_ioctl.
  rewrite (bind_inr _ _ k0 (Some (mk_file inode (Some (mk_fd_state c 0)))) k0)
    by (apply syscall_ok, (device_ioctl_channel inode fresh_state c k0); lia).
  unfold sys_read.
  rewrite <- Hsame0 in Hch.
  rewrite (bind_inr _ _ k0
             (Some (message_length ch,
                    stored_message ch ++ drop (N.to_nat (message_length ch)) buffer)) k0).
  2:{ apply syscall_ok.
      apply (device_read_message k0 inode (mk_fd_state c 0) buffer MAX_MESSAGE_LENGTH ch);
        [cbn; lia|exact Hch|lia|lia|lia]. }
  replace (message_length ch =? 0)%N with false by (symmetry; apply N.eqb_neq; lia).
  rewrite take_app_length' by (symmetry; exact Hstored).
  rewrite Hout. unfold bind. rewrite sys_close_run. reflexivity.
Qed.

Lemma stdout_accepts_all p out :
  stdout_accepts p out = true ->
  exists written, stdout_write p out = Some written /\ take written out = out.
Proof.
  unfold stdout_accepts. destruct (stdout_write p out) as [written|]; [|discriminate].
  intros H. apply Nat.leb_le in H. exists written.
  split; [reflexivity|]. apply take_ge. exact H.
Qed.

Lemma message_reader_ok p buffer a0 device arg2 inode ch k :
  device_node p device = Some inode ->
  to_uint (atoi p arg2) <> 0 ->
  memory_available k ->
  lookup_channel k (iminor inode) (to_uint (atoi p arg2)) = Some ch ->
  (0 < message_length ch <= MAX_MESSAGE_LENGTH)%N ->
  message_fits ch ->
  length buffer = N.to_nat MAX_MESSAGE_LENGTH ->
  stdout_accepts p (stored_message ch) = true ->
  exists k',
    message_reader p buffer [a0; device; arg2] k = (inr (0, stored_message ch), k')
    /\ kmalloc_oracle k' = kmalloc_oracle k
    /\ forall m c, lookup_channel k' m c = lookup_channel k m c.
Proof.
  intros Hnode Hc Hmem Hch Hlen Hfits Hbuf Hout.
  destruct (stdout_accepts_all _ _ Hout) as (written & Hw & Htake).
  destruct (message_reader_run p buffer a0 device arg2 inode ch written k)
    as (k' & Hrun & Hrest); try assumption.
  rewrite Htake in Hrun. exists k'. split; assumption.
Qed.

(** X17. In every state the module can reach after it is loaded, the reader's
    128-byte buffer is large enough: when the device node exists, memory is
    available, standard output accepts the bytes and the selected channel
    holds a message, [message_reader] exits with status 0, prints exactly the
    stored message and changes no channel. *)
Theorem reader_prints_the_stored_message
  (p : platform) (oracle : nat -> option (list byte)) (cs : list call)
  (buffer a0 device arg2 : list byte) (inode : inode_t) (ch : channel_t) :
  let k := exec_all cs (module_init oracle) in
  device_node p device = Some inode ->
  memory_available (module_init oracle) ->
  lookup_channel k (iminor inode) (to_uint (atoi p arg2)) = Some ch ->
  message_length ch <> 0%N ->
  length buffer = N.to_nat MAX_MESSAGE_LENGTH ->
  stdout_accepts p (stored_message ch) = true ->
  exists k',
    message_reader p buffer [a0; device; arg2] k = (inr (0, stored_message ch), k')
    /\ length (stored_message ch) = N.to_nat (message_length ch)
    /\ forall m c, lookup_channel k' m c = lookup_channel k m c.
Proof.
  intros k Hnode Hmem Hch Hnz Hbuf Hout.
  assert (Hrange : length_ok ch).
  { eapply (all_channels_lookup length_ok); [|exact Hch].
    apply exec_all_lengths. constructor. }
  assert (Hfits : message_fits ch).
  { eapply (all_channels_lookup message_fits); [|exact Hch].
    apply (exec_all_all_channels message_fits (fun _ => True)).
    - intros c g _ _. unfold message_fits. cbn. lia.
    - intros ch0 kbuf len _ _ Hk. unfold message_fits, set_message. cbn.
      rewrite memcpy_length by exact Hk. lia.
    - auto.
    - apply List.Forall_nil. }
  assert (Hc : to_uint (atoi p arg2) <> 0).
  { intros H0. rewrite H0 in Hch.
    assert (Hnz0 : (fun ch => chan_id ch <> 0) ch).
    { eapply (all_channels_lookup (fun ch => chan_id ch <> 0)); [|exact Hch].
      apply (exec_all_all_channels _ (fun _ => True)); auto.
      apply List.Forall_nil. }
    apply Hnz0. unfold lookup_channel, channel_of in Hch.
    destruct (find_slot _ _); [eapply find_channel_id; eassumption|discriminate]. }
  assert (Hmemk : memory_available k).
  { unfold k. clear -Hmem. induction cs as [|call cs IH] using rev_ind; [exact Hmem|].
    unfold exec_all in *. rewrite fold_left_app. cbn.
    eapply memory_available_oracle; [apply exec_oracle|exact IH]. }
  unfold length_ok in Hrange.
  destruct (message_reader_ok p buffer a0 device arg2 inode ch k)
    as (k' & Hrun & _ & Hsame); try assumption; [lia|].
  exists k'. split; [exact Hrun|split; [|exact Hsame]].
  unfold stored_message, message_fits in *. rewrite length_take. lia.
Qed.

(** X18. What [message_sender] sends, [message_reader] prints. With memory
    available and a device node behind the path: a sender given a nonzero
    channel, censorship 0 or 1 and a message of 1 to 128 bytes exits with
    status 0, and a reader then run on the same path and channel exits with
    status 0 and prints the message, censored when the sender was asked to. *)
Theorem sender_then_reader
  (p : platform) (k : kernel) (inode : inode_t)
  (s0 r0 device arg2 arg3 rarg2 message buffer : list byte) :
  device_node p device = Some inode ->
  to_uint (atoi p arg2) <> 0 ->
  to_uint (atoi p rarg2) = to_uint (atoi p arg2) ->
  to_uint (atoi p arg3) = 0 \/ to_uint (atoi p arg3) = 1 ->
  ~ In "000"%byte message ->
  (1 <= N.of_nat (length message) <= MAX_MESSAGE_LENGTH)%N ->
  memory_available k ->
  length buffer = N.to_nat MAX_MESSAGE_LENGTH ->
  (forall out, stdout_accepts p out = true) ->
  exists k',
    (code <- message_sender p [s0; device; arg2; arg3; message] ;;
     r <- message_reader p buffer [r0; device; rarg2] ;;
     ret (code, r)) k
    = (inr (0, (0, if to_uint (atoi p arg3) =? 0 then message
                   else censor_spec message)), k').
Proof.
  intros Hnode Hc Hrc Hv Hnul Hlen Hmem Hbuf Hout.
  destruct (message_sender_ok p s0 device arg2 arg3 message inode k)
    as (k1 & ch & Hsend & Hch & Hl & Hst & Horacle & _); try assumption.
  assert (Hfits : message_fits ch).
  { unfold message_fits. rewrite Hl.
    assert (Hs : length (stored_message ch) = length message).
    { rewrite Hst. destruct (_ =? 0); [reflexivity|apply censor_spec_length]. }
    unfold stored_message in Hs. rewrite length_take, Hl in Hs. lia. }
  destruct (message_reader_ok p buffer r0 device rarg2 inode ch k1)
    as (k2 & Hread & _); try assumption.
  - congruence.
  - eapply memory_available_oracle; eassumption.
  - rewrite Hrc. exact Hch.
  - rewrite Hl. lia.
  - apply Hout.
  - exists k2.
    rewrite (bind_inr _ _ _ _ _ Hsend), (bind_inr _ _ _ _ _ Hread).
    rewrite Hst. reflexivity.
Qed.

(** ** The exit status *)

Lemma no_message_changed_refl k : no_message_changed k k.
Proof. split; auto. Qed.

Lemma no_message_changed_trans k1 k2 k3 :
  no_message_changed k1 k2 -> no_message_changed k2 k3 -> no_message_changed k1 k3.
Proof. intros [H1 H2] [H3 H4]. split; eauto. Qed.

Lemma exec_no_message_changed call k :
  ~ succeeds call k -> no_message_changed k (exec call k).
Proof.
  intros Hnot. split.
  - intros m c ch Hch. apply (proj2 (exec_persist call k m c ch Hch)). tauto.
  - intros m c Hu. apply exec_unwritten; [exact Hu|tauto].
Qed.

Lemma device_open_no_message_changed inode file k r k' :
  device_open inode file k = (r, k') -> no_message_changed k k'.
Proof.
  intros H. replace k' with (exec (Open inode file) k)
    by (cbn [exec]; rewrite H; reflexivity).
  apply exec_no_message_changed. cbn. tauto.
Qed.

Lemma device_write_failed_no_message_changed file buffer len k e k' :
  device_write file buffer len k = (inl e, k') -> no_message_changed k k'.
Proof.
  intros H. replace k' with (exec (Write file buffer len) k)
    by (cbn [exec]; rewrite H; reflexivity).
  apply exec_no_message_changed. cbn. rewrite H. intros [n Hn]. discriminate.
Qed.

Lemma device_ioctl_state file cmd param k r k' :
  device_ioctl file cmd param k = (r, k') -> k' = k.
Proof.
  unfold device_ioctl. kern_unfold. kern_cases; intros [= _ <-]; reflexivity.
Qed.

Lemma device_release_state inode file k r k' :
  device_release inode file k = (r, k') -> k' = k.
Proof.
  unfold device_release. kern_unfold. kern_cases; intros [= _ <-]; reflexivity.
Qed.

Lemma device_read_state file buffer len k r k' :
  device_read file buffer len k = (r, k') -> k' = k.
Proof.
  unfold device_read. kern_unfold. kern_cases; intros [= _ <-]; reflexivity.
Qed.

Lemma device_open_inv inode file k f k' :
  device_open inode file k = (inr f, k') ->
  f = mk_file (file_inode file) (Some fresh_state).
Proof.
  intros H. destruct (device_open_fresh _ _ _ _ _ H) as (Hpd & Hino & _).
  destruct f as [fi pd]. cbn in *. congruence.
Qed.

Lemma device_release_run inode file k :
  exists file', device_release inode file k = (inr file', k).
Proof.
  destruct file as [[finode [state|]]|]; eexists; reflexivity.
Qed.

Lemma censor_loop_take (len : N) (ubuf : list byte) :
  (len <= N.of_nat (length ubuf))%N ->
  censor_loop 2 len (take (N.to_nat len) ubuf) = censor_spec (take (N.to_nat len) ubuf).
Proof.
  intros Hlen. rewrite <- censor_loop_spec.
  rewrite length_take. f_equal. lia.
Qed.

Lemma args_accepted (c v : Z) :
  (c =? 0) || (negb (v =? 0) && negb (v =? 1)) = false ->
  c <> 0 /\ (v = 0 \/ v = 1).
Proof.
  rewrite orb_false_iff, andb_false_iff, !negb_false_iff, !Z.eqb_eq, Z.eqb_neq.
  tauto.
Qed.

(** X19. The exit status of [message_sender] tells what happened. If it is
    0, the channel named on the command line holds the message (the bytes of
    the argument up to its NUL, 1 to 128 of them), censored when censorship
    1 was asked. Otherwise it is 1, and no stored message was replaced and
    no message appeared in any channel. *)
Theorem sender_exit_status_is_truthful
  (p : platform) (argv : list (list byte)) (k k' : kernel) (code : Z) :
  message_sender p argv k = (inr code, k') ->
  (code = 0
   /\ exists a0 device arg2 arg3 message inode ch,
       argv = [a0; device; arg2; arg3; message]
       /\ device_node p device = Some inode
       /\ to_uint (atoi p arg2) <> 0
       /\ lookup_channel k' (iminor inode) (to_uint (atoi p arg2)) = Some ch
       /\ message_length ch = strlen (c_string message)
       /\ (1 <= strlen (c_string message) <= 128)%N
       /\ stored_message ch
          = (if to_uint (atoi p arg3) =? 0
             then take (N.to_nat (strlen (c_string message))) (c_string message)
             else censor_spec
                    (take (N.to_nat (strlen (c_string message))) (c_string message))))
  \/ (code = 1 /\ no_message_changed k k').
Proof.
  assert (Hquit : forall k0, no_message_changed k k0 ->
            (inr 1 : errno + Z, k0) = (inr code, k') ->
            code = 1 /\ no_message_changed k k').
  { intros k0 Hk0 [= <- <-]. split; [reflexivity|exact Hk0]. }
  destruct argv as [|a0 [|device [|arg2 [|arg3 [|message [|extra rest]]]]]];
    try (intros H; right; apply (Hquit k); [apply no_message_changed_refl|exact H]).
  unfold message_sender.
  set (c := to_uint (atoi p arg2)). set (v := to_uint (atoi p arg3)).
  destruct ((c =? 0) || (negb (v =? 0) && negb (v =? 1))) eqn:Hargs;
    [intros H; right; apply (Hquit k); [apply no_message_changed_refl|exact H]|].
  apply args_accepted in Hargs as [Hc Hv].
  unfold sys_open, sys_ioctl, sys_write, syscall, bind, ret.
  destruct (device_node p device) as [inode|] eqn:Hnode;
    [|intros H; right; apply (Hquit k); [apply no_message_changed_refl|exact H]].
  destruct (device_open inode (mk_file inode None) k) as [[e|f0] k0] eqn:Hopen.
  { intros H. right. apply (Hquit k0); [|exact H].
    eapply device_open_no_message_changed, Hopen. }
  pose proof (device_open_no_message_changed _ _ _ _ _ Hopen) as Hk0.
  apply device_open_inv in Hopen. cbn [file_inode] in Hopen. subst f0.
  change (Some (mk_file inode (Some fresh_state))) with (session inode fresh_state).
  destruct (device_ioctl (session inode fresh_state) MSG_SLOT_SET_CEN v k0)
    as [[e|f1] k1] eqn:Hio1.
  { apply device_ioctl_state in Hio1. subst k1.
    rewrite sys_close_run.
    intros H. right. apply (Hquit k0); assumption. }
  destruct (device_ioctl_inv _ _ _ _ _ _ _ Hio1) as [-> [(Hcmd & _)|(_ & _ & ->)]];
    [discriminate Hcmd|].
  change (Some (mk_file inode (Some (mk_fd_state (channel_id fresh_state) (to_int v)))))
    with (session inode (mk_fd_state 0 (to_int v))).
  destruct (device_ioctl (session inode (mk_fd_state 0 (to_int v))) MSG_SLOT_CHANNEL c k0)
    as [[e|f2] k2] eqn:Hio2.
  { apply device_ioctl_state in Hio2. subst k2.
    rewrite sys_close_run.
    intros H. right. apply (Hquit k0); assumption. }
  destruct (device_ioctl_inv _ _ _ _ _ _ _ Hio2) as [-> [(_ & _ & ->)|(Hcmd & _)]];
    [|discriminate Hcmd].
  cbn [censorship_enabled].
  assert (Hcc : to_uint c = c).
  { apply to_uint_small. apply to_uint_range. }
  assert (Hvv : to_int v = v) by (destruct Hv as [-> | ->]; reflexivity).
  rewrite Hcc, Hvv.
  change (Some (mk_file inode (Some (mk_fd_state c v))))
    with (session inode (mk_fd_state c v)).
  destruct (device_write (session inode (mk_fd_state c v)) (Some (c_string message))
              (strlen (c_string message)) k0) as [[e|n] k3] eqn:Hwrite.
  { rewrite sys_close_run.
    intros H. right. apply (Hquit k3); [|exact H].
    eapply no_message_changed_trans; [exact Hk0|].
    eapply device_write_failed_no_message_changed, Hwrite. }
  rewrite sys_close_run.
  intros [= <- <-]. left. split; [reflexivity|].
  destruct (device_write_inv_success _ _ _ _ _ _ Hwrite)
    as (inode' & state' & ubuf & kbuf & ch & [= <- <-] & [= <-] & _ & _ & Hlen
        & Hcopy & _ & Hch & Hl & Hst & _).
  exists a0, device, arg2, arg3, message, inode, ch.
  cbn [channel_id] in Hch. fold c. fold v.
  unfold MAX_MESSAGE_LENGTH in Hlen.
  repeat (split; [first [reflexivity|assumption]|]).
  rewrite Hst. unfold apply_censorship. cbn [censorship_enabled].
  destruct (copy_from_user_length _ _ _ Hcopy) as [-> _].
  destruct (v =? 0); [reflexivity|].
  apply censor_loop_take.
  unfold copy_from_user in Hcopy.
  destruct (strlen (c_string message) <=? N.of_nat (length (c_string message)))%N eqn:E;
    [apply N.leb_le, E|discriminate].
Qed.

Lemma device_open_lookup_eq inode file k r k' :
  device_open inode file k = (r, k') ->
  forall m c, lookup_channel k' m c = lookup_channel k m c.
Proof.
  intros H m c. replace k' with (snd (device_open inode file k))
    by (rewrite H; reflexivity).
  apply device_open_lookup.
Qed.

(** X20. [message_reader] never changes a channel, and its exit status tells
    what happened, a negative return value of [write] on standard output
    being the only failure of that call. If the status is 0, the selected
    channel held a message of 1 to 128 bytes, the bytes handed to standard
    output were the stored message (the stored length being within the
    array), [write] returned a count and what reached standard output is
    that many bytes from the front of them: all of them when standard output
    wrote all, a proper prefix after a short write. Otherwise the status is
    1 and nothing was written to standard output. Conversely, with the
    device node there, memory available and a message in the channel, a
    [write] that returns a count, short or not, gives status 0. *)
Theorem reader_exit_status_is_truthful
  (p : platform) (buffer : list byte) (argv : list (list byte))
  (k k' : kernel) (code : Z) (out : list byte) :
  message_reader p buffer argv k = (inr (code, out), k') ->
  (forall m c, lookup_channel k' m c = lookup_channel k m c)
  /\ ((code = 0
       /\ exists a0 device arg2 inode ch sent written,
           argv = [a0; device; arg2]
           /\ device_node p device = Some inode
           /\ lookup_channel k (iminor inode) (to_uint (atoi p arg2)) = Some ch
           /\ (1 <= message_length ch <= 128)%N
           /\ (message_fits ch -> sent = stored_message ch)
           /\ stdout_write p sent = Some written
           /\ out = take written sent
           /\ (stdout_accepts p sent = true -> out = sent))
      \/ (code = 1 /\ out = []))
  /\ (forall a0 device arg2 inode ch written,
         argv = [a0; device; arg2] ->
         device_node p device = Some inode ->
         to_uint (atoi p arg2) <> 0 ->
         memory_available k ->
         lookup_channel k (iminor inode) (to_uint (atoi p arg2)) = Some ch ->
         (1 <= message_length ch <= 128)%N ->
         message_fits ch ->
         length buffer = N.to_nat MAX_MESSAGE_LENGTH ->
         stdout_write p (stored_message ch) = Some written ->
         code = 0 /\ out = take written (stored_message ch)).
Proof.
  intros Hrun.
  assert (Hforward : forall a0 device arg2 inode ch written,
         argv = [a0; device; arg2] ->
         device_node p device = Some inode ->
         to_uint (atoi p arg2) <> 0 ->
         memory_available k ->
         lookup_channel k (iminor inode) (to_uint (atoi p arg2)) = Some ch ->
         (1 <= message_length ch <= 128)%N ->
         message_fits ch ->
         length buffer = N.to_nat MAX_MESSAGE_LENGTH ->
         stdout_write p (stored_message ch) = Some written ->
         code = 0 /\ out = take written (stored_message ch)).
  { intros a0 device arg2 inode ch written -> Hnode Hc Hmem Hch Hlen Hfits Hbuf Hw.
    destruct (message_reader_run p buffer a0 device arg2 inode ch written k)
      as (k0 & Hrun0 & _); try assumption; [unfold MAX_MESSAGE_LENGTH; lia|].
    rewrite Hrun0 in Hrun. injection Hrun as <- <- _. split; reflexivity. }
  cut ((forall m c, lookup_channel k' m c = lookup_channel k m c)
       /\ ((code = 0
            /\ exists a0 device arg2 inode ch sent written,
                argv = [a0; device; arg2]
                /\ device_node p device = Some inode
                /\ lookup_channel k (iminor inode) (to_uint (atoi p arg2)) = Some ch
                /\ (1 <= message_length ch <= 128)%N
                /\ (message_fits ch -> sent = stored_message ch)
                /\ stdout_write p sent = Some written
                /\ out = take written sent
                /\ (stdout_accepts p sent = true -> out = sent))
           \/ (code = 1 /\ out = []))).
  { intros [H1 H2]. split; [exact H1|split; [exact H2|exact Hforward]]. }
  clear Hforward. revert Hrun.
  assert (Hquit : forall k0, (forall m c, lookup_channel k0 m c = lookup_channel k m c) ->
            (inr (1, []) : errno + Z * list byte, k0) = (inr (code, out), k') ->
            (forall m c, lookup_channel k' m c = lookup_channel k m c)
            /\ ((code = 0
                 /\ exists a0 device arg2 inode ch sent written,
                     argv = [a0; device; arg2]
                     /\ device_node p device = Some inode
                     /\ lookup_channel k (iminor inode) (to_uint (atoi p arg2)) = Some ch
                     /\ (1 <= message_length ch <= 128)%N
                     /\ (message_fits ch -> sent = stored_message ch)
                     /\ stdout_write p sent = Some written
                     /\ out = take written sent
                     /\ (stdout_accepts p sent = true -> out = sent))
                \/ (code = 1 /\ out = []))).
  { intros k0 Hk0 [= <- <- <-]. split; [exact Hk0|right; split; reflexivity]. }
  destruct argv as [|a0 [|device [|arg2 [|extra rest]]]];
    try (intros H; apply (Hquit k); [reflexivity|exact H]).
  unfold message_reader.
  set (c := to_uint (atoi p arg2)).
  destruct (c =? 0) eqn:Hc; [intros H; apply (Hquit k); [reflexivity|exact H]|].
  apply Z.eqb_neq in Hc.
  unfold sys_open, sys_ioctl, sys_read, syscall, bind, ret.
  destruct (device_node p device) as [inode|] eqn:Hnode;
    [|intros H; apply (Hquit k); [reflexivity|exact H]].
  destruct (device_open inode (mk_file inode None) k) as [[e|f0] k0] eqn:Hopen.
  { intros H. apply (Hquit k0); [|exact H]. eapply device_open_lookup_eq, Hopen. }
  pose proof (device_open_lookup_eq _ _ _ _ _ Hopen) as Hk0.
  apply device_open_inv in Hopen. cbn [file_inode] in Hopen. subst f0.
  change (Some (mk_file inode (Some fresh_state))) with (session inode fresh_state).
  destruct (device_ioctl (session inode fresh_state) MSG_SLOT_CHANNEL c k0)
    as [[e|f1] k1] eqn:Hio.
  { apply device_ioctl_state in Hio. subst k1. rewrite sys_close_run.
    intros H. apply (Hquit k0); assumption. }
  destruct (device_ioctl_inv _ _ _ _ _ _ _ Hio) as [-> [(_ & _ & ->)|(Hcmd & _)]];
    [|discriminate Hcmd].
  assert (Hcc : to_uint c = c) by (apply to_uint_small, to_uint_range).
  rewrite Hcc.
  change (Some (mk_file inode (Some (mk_fd_state c (censorship_enabled fresh_state)))))
    with (session inode (mk_fd_state c 0)).
  destruct (device_read (session inode (mk_fd_state c 0)) (Some buffer)
              MAX_MESSAGE_LENGTH k0) as [[e|[n buffer']] k2] eqn:Hread.
  { apply device_read_state in Hread. subst k2. rewrite sys_close_run.
    intros H. apply (Hquit k0); assumption. }
  destruct (device_read_inv_success _ _ _ _ _ _ _ Hread)
    as (inode' & state' & ubuf & ch & [= <- <-] & [= <-] & _ & Hch & -> & Hn
        & Hfit & -> & ->).
  cbn [channel_id] in Hch.
  destruct (message_length ch =? 0)%N; lazy beta;
    [rewrite sys_close_run; intros H; apply (Hquit k0); assumption|].
  match goal with
  | |- context [stdout_write p ?bytes] =>
      set (sent := bytes); destruct (stdout_write p sent) as [written|] eqn:Hout
  end; lazy beta iota; rewrite sys_close_run;
    [|intros H; apply (Hquit k0); assumption].
  intros [= <- <- <-]. split; [exact Hk0|]. left. split; [reflexivity|].
  exists a0, device, arg2, inode, ch, sent, written. fold c.
  rewrite <- Hk0. unfold MAX_MESSAGE_LENGTH in Hn.
  split; [reflexivity|]. split; [assumption|]. split; [assumption|].
  split; [assumption|]. split; [|split; [assumption|split; [reflexivity|]]].
  - intros Hmf. unfold sent. apply take_app_length'.
    unfold stored_message, message_fits in *. rewrite length_take. lia.
  - intros Hall. destruct (stdout_accepts_all _ _ Hall) as (w & Hw & Htake).
    congruence.
Qed.

(** X21. Both programs check their command line before they touch the
    device: with the wrong number of arguments, a channel argument that
    [atoi] and the conversion to [unsigned int] turn into 0, for the sender a
    censorship argument that is neither 0 nor 1, or a path behind which
    there is no device node, they exit with status 1, the reader prints
    nothing, and the kernel state is exactly as before. *)
Theorem programs_check_their_arguments
  (p : platform) (buffer : list byte) (argv : list (list byte)) (k : kernel) :
  (length argv <> 5%nat -> message_sender p argv k = (inr 1, k))
  /\ (length argv <> 3%nat -> message_reader p buffer argv k = (inr (1, []), k))
  /\ (forall a0 device arg2 arg3 message,
         argv = [a0; device; arg2; arg3; message] ->
         to_uint (atoi p arg2) = 0
         \/ (to_uint (atoi p arg3) <> 0 /\ to_uint (atoi p arg3) <> 1)
         \/ device_node p device = None ->
         message_sender p argv k = (inr 1, k))
  /\ (forall a0 device arg2,
         argv = [a0; device; arg2] ->
         to_uint (atoi p arg2) = 0 \/ device_node p device = None ->
         message_reader p buffer argv k = (inr (1, []), k)).
Proof.
  split; [|split; [|split]].
  - intros Hlen.
    destruct argv as [|a0 [|a1 [|a2 [|a3 [|a4 [|a5 rest]]]]]]; try reflexivity.
    cbn in Hlen. lia.
  - intros Hlen.
    destruct argv as [|a0 [|a1 [|a2 [|a3 rest]]]]; try reflexivity.
    cbn in Hlen. lia.
  - intros a0 device arg2 arg3 message -> Hbad. unfold message_sender.
    destruct (to_uint (atoi p arg2) =? 0) eqn:Hc; [reflexivity|].
    destruct (negb (to_uint (atoi p arg3) =? 0) && negb (to_uint (atoi p arg3) =? 1))
      eqn:Hv; [reflexivity|].
    apply Z.eqb_neq in Hc.
    apply andb_false_iff in Hv. rewrite !negb_false_iff, !Z.eqb_eq in Hv.
    destruct Hbad as [H|[[H0 H1]|Hnode]]; [congruence|tauto|].
    cbn [orb]. unfold bind, sys_open. rewrite Hnode. reflexivity.
  - intros a0 device arg2 -> Hbad. unfold message_reader.
    destruct (to_uint (atoi p arg2) =? 0) eqn:Hc; [reflexivity|].
    apply Z.eqb_neq in Hc.
    destruct Hbad as [H|Hnode]; [congruence|].
    unfold bind, sys_open. rewrite Hnode. reflexivity.
Qed.

(** * The further properties at concrete inputs *)

Lemma channel_ids_nonzero_instance : 3 <> 0 /\ chan_id written_channel = 3.
Proof.
  apply (proj2 channel_ids_nonzero zeroed written_calls 0 3 written_channel).
  by_evaluation.
Defined.


Lemma message_array_keeps_its_size_instance :
  length (message written_channel) = 128%nat.
Proof.
  apply (proj2 message_array_keeps_its_size zeroed written_calls 0 3
           written_channel).
  - intros n g [= <-]. reflexivity.
  - by_evaluation.
Defined.

Lemma registry_keys_are_unique_instance :
  (length (List.filter (fun s => (minor s =? 0)%Z)
             (slot_list_head (exec_all written_calls (module_init zeroed)))) <= 1)%nat.
Proof.
  apply (proj2 (proj2 registry_keys_are_unique) zeroed written_calls 0).
Defined.

Lemma only_a_write_changes_a_channel_instance :
  lookup_channel
    (exec (Read (session node0 (mk_fd_state 3 0)) (Some user_page) 4) written) 0 3
  = lookup_channel written 0 3.
Proof.
  apply (only_a_write_changes_a_channel
           (Read (session node0 (mk_fd_state 3 0)) (Some user_page) 4) written 0 3).
  cbn. tauto.
Defined.

Lemma successful_write_stores_its_bytes_instance :
  exists ch,
    lookup_channel
      (snd (device_write (session node0 (mk_fd_state 4 1))
              (Some (list_byte_of_string "ABCDEFGHI")) 9 written)) 0 4 = Some ch
    /\ stored_message ch = list_byte_of_string "AB#DE#GH#".
Proof.
  destruct (successful_write_stores_its_bytes
              (session node0 (mk_fd_state 4 1))
              (Some (list_byte_of_string "ABCDEFGHI")) 9 9 written
              (snd (device_write (session node0 (mk_fd_state 4 1))
                      (Some (list_byte_of_string "ABCDEFGHI")) 9 written)))
    as (inode & state & ubuf & ch & [= <- <-] & [= <-] & _ & _ & _ & _ & Hch & _
        & Hst & _); [by_evaluation|].
  exists ch. split; [exact Hch|exact Hst].
Defined.

Lemma channels_persist_instance :
  lookup_channel
    (exec_all [Read (session node0 (mk_fd_state 3 0)) (Some user_page) 4;
               Write (session node0 (mk_fd_state 4 0))
                 (Some (list_byte_of_string "hello")) 5] written) 0 3
  = Some written_channel.
Proof.
  apply (channels_persist
           [Read (session node0 (mk_fd_state 3 0)) (Some user_page) 4;
            Write (session node0 (mk_fd_state 4 0))
              (Some (list_byte_of_string "hello")) 5]
           written 0 3 written_channel).
  - by_evaluation.
  - cbn. repeat split; try tauto. intros [[_ H] _]. discriminate H.
Defined.

Lemma failed_write_is_invisible_instance :
  fst (device_read (session node0 (mk_fd_state 9 0)) (Some user_page) 128
         (snd (device_write (session node0 (mk_fd_state 9 0)) (Some []) 5 written)))
  = fst (device_read (session node0 (mk_fd_state 9 0)) (Some user_page) 128 written).
Proof.
  apply (failed_write_is_invisible (session node0 (mk_fd_state 9 0)) (Some []) 5
           written
           (snd (device_write (session node0 (mk_fd_state 9 0)) (Some []) 5 written))
           EFAULT).
  by_evaluation.
Defined.

Lemma successful_read_returns_stored_message_instance :
  exists ch,
    lookup_channel written 0 3 = Some ch /\ 8%N = message_length ch.
Proof.
  destruct (successful_read_returns_stored_message
              (session node0 (mk_fd_state 3 0)) (Some user_page) 128 8
              (list_byte_of_string "12345678" ++ drop 8 user_page) written written)
    as (inode & state & ubuf & ch & [= <- <-] & _ & Hch & Hn & _);
    [by_evaluation|].
  exists ch. split; [exact Hch|exact Hn].
Defined.

Lemma write_errors_have_causes_instance :
  exists (inode : inode_t) (state : fd_state_t) (ubuf : list byte),
    session node0 (mk_fd_state 9 0) = session inode state
    /\ Some [] = Some ubuf
    /\ channel_id state <> 0
    /\ (1 <= 5 <= 128)%N
    /\ endpoint_registered written inode
    /\ (N.of_nat (length ubuf) < 5)%N.
Proof.
  apply (write_errors_have_causes (session node0 (mk_fd_state 9 0)) (Some []) 5
           written
           (snd (device_write (session node0 (mk_fd_state 9 0)) (Some []) 5 written))
           EFAULT).
  by_evaluation.
Defined.

Lemma read_errors_have_causes_instance :
  exists inode state ch,
    session node0 (mk_fd_state 3 0) = session inode state
    /\ lookup_channel written (iminor inode) (channel_id state) = Some ch
    /\ (4 < message_length ch)%N.
Proof.
  refine (proj2 (read_errors_have_causes (session node0 (mk_fd_state 3 0))
                   (Some user_page) 4 written written (inl ENOSPC) _)
            ENOSPC eq_refl).
  by_evaluation.
Defined.

Lemma open_registers_the_endpoint_instance :
  exists k', device_open node0 (mk_file node0 None) (module_init zeroed)
             = (inr (mk_file node0 (Some fresh_state)), k')
             /\ endpoint_registered k' node0.
Proof.
  apply (proj1 (open_registers_the_endpoint node0 (mk_file node0 None)
                  (module_init zeroed))).
  by_evaluation.
Defined.

Lemma ioctl_channel_keeps_low_bits_instance :
  device_ioctl (session node0 fresh_state) MSG_SLOT_CHANNEL (2 ^ 32) written
  = (inr (mk_file node0 (Some (mk_fd_state 0 0))), written).
Proof.
  apply (ioctl_channel_keeps_low_bits node0 fresh_state (2 ^ 32) written).
  by_evaluation.
Defined.

Lemma ioctl_settings_are_independent_instance :
  (f <- device_ioctl (session node0 fresh_state) MSG_SLOT_CHANNEL 7 ;;
   device_ioctl (Some f) MSG_SLOT_SET_CEN 1) written
  = (inr (mk_file node0 (Some (mk_fd_state 7 1))), written).
Proof.
  apply (ioctl_settings_are_independent node0 fresh_state 7 1 written).
  - by_evaluation.
  - right. reflexivity.
Defined.

Lemma released_file_is_dead_instance :
  exists file',
    device_release node0 (session node0 (mk_fd_state 3 0)) written = (inr file', written)
    /\ device_read file' (Some user_page) 128 written = (inl EINVAL, written).
Proof.
  destruct (released_file_is_dead node0 (session node0 (mk_fd_state 3 0)) written)
    as (file' & Hrel & _ & _ & Hdead).
  exists file'. split; [exact Hrel|].
  apply (Hdead written 0 0 (Some user_page) 128%N).
Defined.

Lemma message_outlives_its_session_instance :
  exists k1,
    (f <- device_open node0 (mk_file node0 None) ;;
     f <- device_ioctl (Some f) MSG_SLOT_CHANNEL 7 ;;
     device_write (Some f) (Some (list_byte_of_string "hello")) 5 ;;
     device_release node0 (Some f)) (module_init zeroed)
    = (inr (Some (mk_file node0 None)), k1)
    /\ forall cs : list call,
        never_written cs k1 0 7 ->
        exists k2,
          (f <- device_open node0 (mk_file node0 None) ;;
           f <- device_ioctl (Some f) MSG_SLOT_CHANNEL 7 ;;
           device_read (Some f) (Some user_page) 128) (exec_all cs k1)
          = (inr (5%N, list_byte_of_string "hello" ++ drop 5 user_page), k2).
Proof.
  apply (message_outlives_its_session (module_init zeroed) node0 7
           (list_byte_of_string "hello") user_page 128); by_evaluation.
Defined.

Lemma reader_prints_the_stored_message_instance :
  exists k',
    message_reader one_node user_page
      [list_byte_of_string "message_reader"; list_byte_of_string "/dev/slot0";
       list_byte_of_string "3"]
      (exec_all written_calls (module_init zeroed))
    = (inr (0, list_byte_of_string "12345678"), k').
Proof.
  destruct (reader_prints_the_stored_message one_node zeroed written_calls user_page
              (list_byte_of_string "message_reader") (list_byte_of_string "/dev/slot0")
              (list_byte_of_string "3") node0 written_channel)
    as (k' & Hrun & _); try by_evaluation.
  exists k'. exact Hrun.
Defined.

Lemma sender_then_reader_instance :
  exists k',
    (code <- message_sender one_node
               [list_byte_of_string "message_sender"; list_byte_of_string "/dev/slot0";
                list_byte_of_string "7"; list_byte_of_string "1";
                list_byte_of_string "ABCDEFGHI"] ;;
     r <- message_reader one_node user_page
            [list_byte_of_string "message_reader"; list_byte_of_string "/dev/slot0";
             list_byte_of_string "7"] ;;
     ret (code, r)) (module_init zeroed)
    = (inr (0, (0, list_byte_of_string "AB#DE#GH#")), k').
Proof.
  apply (sender_then_reader one_node (module_init zeroed) node0
           (list_byte_of_string "message_sender") (list_byte_of_string "message_reader")
           (list_byte_of_string "/dev/slot0") (list_byte_of_string "7")
           (list_byte_of_string "1") (list_byte_of_string "7")
           (list_byte_of_string "ABCDEFGHI") user_page);
    first [ by_evaluation
          | right; reflexivity
          | cbn; intuition discriminate
          | intros out; unfold stdout_accepts; cbn; apply Nat.leb_refl ].
Defined.

Lemma sender_exit_status_is_truthful_instance :
  no_message_changed written
    (snd (message_sender one_node
            [list_byte_of_string "message_sender"; list_byte_of_string "/dev/slot0";
             list_byte_of_string "7"; list_byte_of_string "0"; []] written)).
Proof.
  destruct (sender_exit_status_is_truthful one_node
              [list_byte_of_string "message_sender"; list_byte_of_string "/dev/slot0";
               list_byte_of_string "7"; list_byte_of_string "0"; []]
              written
              (snd (message_sender one_node
                      [list_byte_of_string "message_sender";
                       list_byte_of_string "/dev/slot0";
                       list_byte_of_string "7"; list_byte_of_string "0"; []] written))
              1) as [[H0 _]|[_ Hsame]]; [by_evaluation|discriminate H0|exact Hsame].
Defined.

Lemma reader_exit_status_is_truthful_instance :
  0 = 0 /\ list_byte_of_string "123" = take 3 (stored_message written_channel).
Proof.
  refine (proj2 (proj2 (reader_exit_status_is_truthful short_stdout user_page
           [list_byte_of_string "message_reader"; list_byte_of_string "/dev/slot0";
            list_byte_of_string "3"]
           written
           (snd (message_reader short_stdout user_page
                   [list_byte_of_string "message_reader";
                    list_byte_of_string "/dev/slot0";
                    list_byte_of_string "3"] written))
           0 (list_byte_of_string "123") _))
           (list_byte_of_string "message_reader") (list_byte_of_string "/dev/slot0")
           (list_byte_of_string "3") node0 written_channel 3%nat _ _ _ _ _ _ _ _ _);
    first [by_evaluation | unfold message_fits; cbn; lia].
Defined.

Lemma programs_check_their_arguments_instance :
  message_sender one_node [list_byte_of_string "message_sender"] written
  = (inr 1, written).
Proof.
  apply (programs_check_their_arguments one_node user_page
           [list_byte_of_string "message_sender"] written).
  by_evaluation.
Defined.
